(** * NanoDB: the command loop of [src/main.c]

    A shallow embedding of the read-tokenize-dispatch loop of NanoDB and
    the properties of its specification.

    - Standard input is a finite sequence of bytes, a [string].
    - Standard output is the concatenation of what the [printf] calls write.
    - [buf] holds a C string; the C library functions the program calls
      ([fgets], [strcspn], [strtok], [strcmp], [atoi], [strcpy], [printf])
      are modelled on the strings they read and produce.
    - [int] has 32 bits and [long] 64; [atoi] is [strtol] converted to
      [int], as in the GNU C library.
    - [struct Row] keeps its layout: an [int], then the 32 bytes of
      [username] and the 255 bytes of [email], one array after the other.
      [strcpy] stores the bytes where the layout puts them, so a copy that
      is too long for [username] runs on into [email]; ISO C gives such a
      copy no meaning, and this is what a plain [strcpy] does with it.  A
      copy that would leave the struct has no result in the model. *)

From Stdlib Require Import Bool Arith ZArith Lia List.
From Stdlib Require Import Ascii String DecimalString.
From Stdlib Require DecimalZ.
From Equations Require Import Equations.
Import ListNotations.

Local Open Scope string_scope.

(** ** Bytes and strings *)

Definition NUL : ascii := "000"%char.
Definition LF : ascii := "010"%char.
Definition SP : ascii := " "%char.
Definition TAB : ascii := "009"%char.

(** The one-byte string holding a newline. *)
Definition nl : string := String LF "".

Module Str.

(** The longest prefix of [s] whose bytes all satisfy [p]. *)
Fixpoint take_while (p : ascii -> bool) (s : string) : string :=
  match s with
  | "" => ""
  | String c s' => if p c then String c (take_while p s') else ""
  end.

(** What is left of [s] after [take_while p s]. *)
Fixpoint drop_while (p : ascii -> bool) (s : string) : string :=
  match s with
  | "" => ""
  | String c s' => if p c then drop_while p s' else s
  end.

(** Every byte of [s] satisfies [p]. *)
Fixpoint all (p : ascii -> bool) (s : string) : bool :=
  match s with
  | "" => true
  | String c s' => p c && all p s'
  end.

Definition take (n : nat) (s : string) : string := substring 0 n s.

Fixpoint drop (n : nat) (s : string) : string :=
  match n, s with
  | 0, _ => s
  | S _, "" => ""
  | S n', String _ s' => drop n' s'
  end.

Fixpoint replicate (n : nat) (c : ascii) : string :=
  match n with
  | 0 => ""
  | S n' => String c (replicate n' c)
  end.

Definition tl (s : string) : string :=
  match s with
  | "" => ""
  | String _ s' => s'
  end.

End Str.

(** ** The C library, as far as [main] uses it *)

(** [fgets(buf, size, stdin)] reads at most [size - 1] bytes and stops after
    a newline, which it keeps, or at the end of the input.  [fgets_read n]
    returns the bytes read and the input that is left. *)
Fixpoint fgets_read (n : nat) (input : string) : string * string :=
  match n, input with
  | 0, _ => ("", input)
  | S _, "" => ("", "")
  | S n', String c rest =>
      if Ascii.eqb c LF then (String c "", rest)
      else let (l, r) := fgets_read n' rest in (String c l, r)
  end.

(** [fgets] returns [NULL] when the input ends before any byte is read. *)
Definition fgets (size : nat) (input : string) : option (string * string) :=
  match input with
  | "" => None
  | _ => Some (fgets_read (size - 1) input)
  end.

(** The C string an array of bytes holds: the bytes before the first NUL.
    [fgets] stores the NUL bytes of the input as they come, so the string
    the program sees in [buf] may be shorter than what was read. *)
Definition c_str (bytes : string) : string :=
  Str.take_while (fun c => negb (Ascii.eqb c NUL)) bytes.

(** [buf[strcspn(buf, "\n")] = 0]: the string is cut at its first newline. *)
Definition chomp (s : string) : string :=
  Str.take_while (fun c => negb (Ascii.eqb c LF)) s.

(** The command line the loop body works on, from the bytes [fgets] read. *)
Definition line_of (bytes : string) : string := chomp (c_str bytes).

Definition is_delim (c : ascii) : bool := Ascii.eqb c SP.
Definition non_delim (c : ascii) : bool := negb (is_delim c).

(** [strtok(_, " ")] from the position [save]: skip the delimiters; at the
    end of the string return [NULL]; otherwise the token runs up to the next
    delimiter, which is overwritten by NUL, and the saved position moves
    past it ([strtok(NULL, " ")] resumes there). *)
Definition strtok (save : string) : option string * string :=
  match Str.drop_while is_delim save with
  | "" => (None, "")
  | start =>
      (Some (Str.take_while non_delim start),
       Str.tl (Str.drop_while non_delim start))
  end.

(** [isspace] in the C locale. *)
Definition isspace (c : ascii) : bool :=
  let n := nat_of_ascii c in
  Nat.eqb n 32 || (Nat.leb 9 n && Nat.leb n 13).

Definition isdigit (c : ascii) : bool :=
  let n := nat_of_ascii c in Nat.leb 48 n && Nat.leb n 57.

Definition digit_val (c : ascii) : Z := Z.of_nat (nat_of_ascii c - 48).

Local Open Scope Z_scope.

(** The value of the leading decimal digits of [s], from the accumulator. *)
Fixpoint digits_value (acc : Z) (s : string) : Z :=
  match s with
  | String c s' =>
      if isdigit c then digits_value (acc * 10 + digit_val c) s' else acc
  | EmptyString => acc
  end.

Definition LONG_MAX : Z := 2 ^ 63 - 1.
Definition LONG_MIN : Z := - 2 ^ 63.

(** [strtol(s, NULL, 10)] with a 64-bit [long]: white space, an optional
    sign, then digits; no digits give 0 and a value out of range is
    clamped. *)
Definition strtol (s : string) : Z :=
  match Str.drop_while isspace s with
  | String c s' =>
      if Ascii.eqb c "-" then Z.max LONG_MIN (- digits_value 0 s')
      else if Ascii.eqb c "+" then Z.min LONG_MAX (digits_value 0 s')
      else Z.min LONG_MAX (digits_value 0 (String c s'))
  | EmptyString => 0
  end.

(** The conversion of a [long] to a 32-bit [int]: wrap-around. *)
Definition int_of_long (z : Z) : Z :=
  (z + 2 ^ 31) mod 2 ^ 32 - 2 ^ 31.

(** [atoi(s)] is [(int) strtol(s, NULL, 10)]. *)
Definition atoi (s : string) : Z := int_of_long (strtol s).

(** [printf("%d", n)]. *)
Definition printf_d (n : Z) : string := NilZero.string_of_int (Z.to_int n).

Local Close Scope Z_scope.

(** ** [struct Row] *)

Definition USERNAME_SIZE : nat := 32.
Definition EMAIL_SIZE : nat := 255.

(** The two character arrays of the struct lie one after the other:
    [username] fills the bytes 0..31 of [chars] and [email] the bytes
    32..286. *)
Definition USERNAME_OFFSET : nat := 0.
Definition EMAIL_OFFSET : nat := USERNAME_OFFSET + USERNAME_SIZE.
Definition CHARS_SIZE : nat := USERNAME_SIZE + EMAIL_SIZE.

Record Row : Type := mkRow {
  id : Z;
  chars : nat -> ascii
}.

Definition poke (m : nat -> ascii) (i : nat) (c : ascii) : nat -> ascii :=
  fun j => if Nat.eqb j i then c else m j.

(** Write the bytes of [s] and its terminating NUL from the index [i] on. *)
Fixpoint poke_str (m : nat -> ascii) (i : nat) (s : string) : nat -> ascii :=
  match s with
  | "" => poke m i NUL
  | String c s' => poke_str (poke m i c) (S i) s'
  end.

(** Read the C string that starts at the index [i], looking at no more
    than [n] bytes; [None] when none of them is NUL. *)
Fixpoint peek_str (m : nat -> ascii) (i n : nat) : option string :=
  match n with
  | 0 => None
  | S n' =>
      if Ascii.eqb (m i) NUL then Some ""
      else option_map (String (m i)) (peek_str m (S i) n')
  end.

(** [strcpy(dst, src)] where [dst] starts [off] bytes into the character
    arrays of [row]: it copies [src] and its NUL, whatever the size of the
    array it was given.  The copy has no defined result when it leaves the
    object [row] itself ([None]). *)
Definition strcpy (row : Row) (off : nat) (src : string) : option Row :=
  if Nat.leb (off + length src + 1) CHARS_SIZE
  then Some (mkRow (id row) (poke_str (chars row) off src))
  else None.

(** The argument a [%s] of [printf] reads from the array at [off]. *)
Definition printf_s (row : Row) (off : nat) : option string :=
  peek_str (chars row) off (CHARS_SIZE - off).

(** ** The command loop *)

Definition PROMPT : string := "NanoDB> ".

(** How an iteration of [while (true)] ends: it reaches the end of the body
    ([Next]), runs [continue] or [break], or has no defined behaviour. *)
Inductive flow : Type := Next | Continue | Break | Undefined.

(** The body of the accepted [insert]: fill [row], print it. *)
Definition insert (row : Row) (id_string username email : string)
  : option string :=
  let row := mkRow (atoi id_string) (chars row) in
  match strcpy row USERNAME_OFFSET username with
  | None => None
  | Some row =>
      match strcpy row EMAIL_OFFSET email with
      | None => None
      | Some row =>
          match printf_s row USERNAME_OFFSET, printf_s row EMAIL_OFFSET with
          | Some u, Some e =>
              Some ("inserted ID " ++ printf_d (id row) ++ ", user " ++ u
                    ++ ", email " ++ e ++ nl)
          | _, _ => None
          end
      end
  end.

Definition SYNTAX_ERROR : string :=
  "syntax error: insert <id> <username> <email>" ++ nl.

Definition unrecognized (command : string) : string :=
  "Unrecognized command '" ++ command ++ "'." ++ nl.

(** The body of the loop from the line in [buf] on, up to but not including
    the prompt that ends it.  [row] is the content of the uninitialised
    [struct Row row]. *)
Definition dispatch (row : Row) (line : string) : flow * string :=
  let (command, save) := strtok line in
  match command with
  | None => (Continue, "")
  | Some command =>
      if (command =? "q") || (command =? "quit") then (Break, "")
      else if command =? "insert" then
        let (id_string, save) := strtok save in
        let (username, save) := strtok save in
        let (email, save) := strtok save in
        match id_string, username, email with
        | Some id_string, Some username, Some email =>
            match insert row id_string username email with
            | Some out => (Next, out)
            | None => (Undefined, "")
            end
        | _, _, _ => (Next, SYNTAX_ERROR)
        end
      else (Next, unrecognized command)
  end.

(** One iteration on the bytes [fgets] stored in [buf]: what it prints and
    how it ends.  The prompt is printed where the end of the body is
    reached. *)
Definition body (row : Row) (bytes : string) : flow * string :=
  match dispatch row (line_of bytes) with
  | (Next, out) => (Next, out ++ PROMPT)
  | r => r
  end.

(** How the program ends. *)
Inductive status : Type := Exited (code : Z) | Crashed.

(** What one pass through [while (true)] does with the input that is left:
    the loop is left ([Done]) or entered again on the rest ([Again]). *)
Inductive pass : Type :=
| Done (out : string) (st : status)
| Again (out : string) (rest : string).

Definition iteration (row : Row) (input : string) : pass :=
  match fgets 256 input with
  | None => Done "" (Exited 0)
  | Some (buf, rest) =>
      match body row buf with
      | (Break, out) => Done out (Exited 0)
      | (Undefined, out) => Done out Crashed
      | (_, out) => Again out rest
      end
  end.

(** Each pass consumes input, so the loop ends. *)
Lemma fgets_read_length n s :
  length (snd (fgets_read n s)) <= length s.
Proof.
  revert s. induction n as [|n IH]; intros [|c s]; cbn; try lia.
  destruct (Ascii.eqb c LF); cbn; [lia|].
  specialize (IH s). destruct (fgets_read n s) as [l r]. cbn in *. lia.
Qed.

Lemma fgets_shorter n input buf rest :
  fgets (S (S n)) input = Some (buf, rest) -> length rest < length input.
Proof.
  destruct input as [|c input]; [discriminate|].
  cbn. destruct (Ascii.eqb c LF).
  - intros [= _ <-]. lia.
  - pose proof (fgets_read_length n input) as G.
    destruct (fgets_read n input) as [l r]. intros [= _ <-]. cbn in G. lia.
Qed.

Lemma iteration_shorter row input out rest :
  iteration row input = Again out rest -> length rest < length input.
Proof.
  unfold iteration. destruct (fgets 256 input) as [[buf r]|] eqn:E; [|discriminate].
  apply (fgets_shorter 254) in E.
  destruct (body row buf) as [[] o]; intros [= _ <-] || discriminate; exact E.
Qed.

(** A value together with the equation that says where it comes from. *)
Definition inspect {A : Type} (a : A) : {b : A | a = b} := exist _ a eq_refl.

(** [while (true) { ... }] on the input that is left: everything it prints
    and how it ends. *)
Equations? loop (row : Row) (input : string) : string * status
  by wf (length input) lt :=
  loop row input with inspect (iteration row input) := {
    | exist _ (Done out st) _ => (out, st)
    | exist _ (Again out rest) H =>
        let (o, st) := loop row rest in (out ++ o, st)
  }.
Proof. eapply iteration_shorter; eassumption. Qed.

(** [main]: the first prompt, then the loop; [return 0]. *)
Definition main (row : Row) (stdin : string) : string * status :=
  let (out, st) := loop row stdin in (PROMPT ++ out, st).

(** ** Notions of the specification *)

(** The tokens of a line: its maximal runs of bytes that are not the
    delimiter.  [tokens_upto n] reads at most [n] tokens. *)
Fixpoint tokens_upto (n : nat) (s : string) : list string :=
  match n with
  | 0 => []
  | S n' =>
      match Str.drop_while is_delim s with
      | "" => []
      | start =>
          Str.take_while non_delim start
          :: tokens_upto n' (Str.drop_while non_delim start)
      end
  end.

(** A string of [n] bytes holds fewer than [n + 1] tokens. *)
Definition tokens (s : string) : list string := tokens_upto (length s) s.

(** The same with every character of [isspace] as a separator; the program
    does not use it. *)
Fixpoint ws_tokens_upto (n : nat) (s : string) : list string :=
  match n with
  | 0 => []
  | S n' =>
      match Str.drop_while isspace s with
      | "" => []
      | start =>
          Str.take_while (fun c => negb (isspace c)) start
          :: ws_tokens_upto n'
               (Str.drop_while (fun c => negb (isspace c)) start)
      end
  end.

Definition ws_tokens (s : string) : list string :=
  ws_tokens_upto (length s) s.

(** A [struct Row] before anything is stored in it, for the examples. *)
Definition row0 : Row := mkRow 0 (fun _ => "?"%char).

(** The bytes of [w] stand in [m] from the index [i] on. *)
Fixpoint bytes_at (m : nat -> ascii) (i : nat) (w : string) : Prop :=
  match w with
  | "" => True
  | String c w' => m i = c /\ bytes_at m (S i) w'
  end.

Definition no_nul (s : string) : bool :=
  Str.all (fun c => negb (Ascii.eqb c NUL)) s.

(** What [printf] shows of [row.username] after the two copies: the token
    when it fits its array with its NUL, else its first 32 bytes run on
    into [row.email]. *)
Definition username_shown (username email : string) : string :=
  if Nat.ltb (length username) USERNAME_SIZE then username
  else Str.take USERNAME_SIZE username ++ email.

Definition inserted (n : Z) (username email : string) : string :=
  "inserted ID " ++ printf_d n ++ ", user " ++ username
  ++ ", email " ++ email ++ nl.

(** Whether the input [s] stops at the start of a line, when it began at
    one iff [fresh]. *)
Fixpoint at_line_start (fresh : bool) (s : string) : bool :=
  match s with
  | "" => fresh
  | String c s' => at_line_start (Ascii.eqb c LF) s'
  end.

(** The input [s] followed by the line [l]: the last line of [s] is ended
    first when [s] stops in the middle of it. *)
Definition with_line (s l : string) : string :=
  (if at_line_start true s then s else s ++ nl) ++ l ++ nl.

Fixpoint append_line (fresh : bool) (s l : string) : string :=
  match s with
  | "" => (if fresh then "" else nl) ++ l ++ nl
  | String c s' => String c (append_line (Ascii.eqb c LF) s' l)
  end.

Definition line_byte (c : ascii) : bool :=
  negb (Ascii.eqb c NUL) && negb (Ascii.eqb c LF).

Definition is_quit (command : string) : bool :=
  (command =? "q") || (command =? "quit").

(** A line with tabs where the specification expects separators. *)
Definition tab_line : string :=
  "insert" ++ String TAB "1" ++ String TAB "alice" ++ String TAB "a@b".

(** The results of the four [strtok] calls that [main] makes at most on a
    line. *)
Definition strtok_calls (line : string) : list (option string) :=
  let (command, save) := strtok line in
  let (id_string, save) := strtok save in
  let (username, save) := strtok save in
  let (email, save) := strtok save in
  [command; id_string; username; email].

(** A line of 267 bytes: a command, spaces up to the byte 255, a second
    command. *)
Definition two_commands_line : string :=
  "insert 1 a b" ++ Str.replicate 243 SP ++ "insert 2 c d".

(** A user name of 40 bytes. *)
Definition long_username : string :=
  "abcdefghijklmnopqrstuvwxyz0123456789ABCD".

(** Output that holds no text but, maybe, the prompt. *)
Definition only_prompt (out : string) : Prop := out = "" \/ out = PROMPT.

(** Splitting at spaces, as a relation.
    [split_at_spaces s ts]: [s] is made of the strings [ts], none of them
    empty or holding a space, with spaces and only spaces before, between
    and after them. *)
Inductive split_at_spaces : string -> list string -> Prop :=
| split_blank sp :
    Str.all is_delim sp = true -> split_at_spaces sp []
| split_token sp t rest ts :
    Str.all is_delim sp = true ->
    t <> "" -> Str.all non_delim t = true ->
    rest = "" \/ (exists r, rest = String SP r) ->
    split_at_spaces rest ts ->
    split_at_spaces (sp ++ t ++ rest) (t :: ts).

(** After white space and a sign, [s] goes on with a decimal digit. *)
Definition has_leading_digits (s : string) : bool :=
  match Str.drop_while isspace s with
  | String c s' =>
      if Ascii.eqb c "-" || Ascii.eqb c "+"
      then match s' with String d _ => isdigit d | EmptyString => false end
      else isdigit c
  | EmptyString => false
  end.

(** The words of the specification: numeric text is a decimal number, an
    optional sign and digits, and nothing else. *)
Definition valid_numeric_text (s : string) : bool :=
  match s with
  | String c s' =>
      if Ascii.eqb c "-" || Ascii.eqb c "+"
      then negb (s' =? "") && Str.all isdigit s'
      else Str.all isdigit s
  | EmptyString => false
  end.

Definition no_lf (s : string) : bool :=
  Str.all (fun c => negb (Ascii.eqb c LF)) s.

(** Lines on which the claims of the specification fail: lines longer
    than the buffer, and lines that hold a NUL byte. *)
Definition long_email_line : string :=
  "insert 1 bob " ++ Str.replicate 254 "e".

Definition nul_email_line : string :=
  "insert 1 bob b" ++ String NUL "c".

Definition spaces_then_insert : string :=
  Str.replicate 250 SP ++ "insert 1 a".

Definition long_token : string := Str.replicate 300 "x".

Definition nul_token : string := "foo" ++ String NUL "bar".

Definition long_name_line : string :=
  "insert abc " ++ Str.replicate 250 "u" ++ " e@x".

Definition nul_id_line : string :=
  "insert ab" ++ String NUL "c bob b@x".

Definition long_tail_line : string :=
  "insert 1 a b " ++ Str.replicate 250 "z".

Definition nul_first_arg_line : string :=
  "insert 1" ++ String NUL "x a b c".

(** ** Notions of the further properties *)

Definition INT_MIN : Z := (- 2 ^ 31)%Z.
Definition INT_MAX : Z := (2 ^ 31 - 1)%Z.

Definition starts_with_digit (s : string) : bool :=
  match s with
  | String d _ => isdigit d
  | EmptyString => false
  end.

(** What is printed after the first prompt when the lines [ls] are the
    answers to the commands: each answer, a newline, the prompt. *)
Fixpoint responses (ls : list string) : string :=
  match ls with
  | [] => ""
  | l :: ls' => l ++ nl ++ PROMPT ++ responses ls'
  end.

(** * Properties *)

(** ** The model at work *)

Example atoi_ex1 : atoi "42" = 42%Z.
Proof. reflexivity. Qed.

Example atoi_ex2 : atoi "-17x" = (-17)%Z.
Proof. reflexivity. Qed.

Example atoi_ex3 : atoi "abc" = 0%Z.
Proof. reflexivity. Qed.

Example atoi_ex4 : atoi "4294967297" = 1%Z.
Proof. reflexivity. Qed.

Example printf_d_ex : printf_d (-120)%Z = "-120" /\ printf_d 0%Z = "0".
Proof. split; reflexivity. Qed.

Example strtok_ex : strtok "  ab  cd" = (Some "ab", " cd").
Proof. reflexivity. Qed.

Example fgets_ex : fgets 4 ("abcdef" ++ nl) = Some ("abc", "def" ++ nl).
Proof. reflexivity. Qed.

Example tokens_ex :
  tokens "  insert  1 a   b@c " = ["insert"; "1"; "a"; "b@c"].
Proof. reflexivity. Qed.

Example main_ex :
  main row0 ("insert 1 alice alice@example.com" ++ nl ++ "quit" ++ nl)
  = (PROMPT ++ "inserted ID 1, user alice, email alice@example.com" ++ nl
     ++ PROMPT, Exited 0).
Proof. vm_compute. reflexivity. Qed.

(** ** The loop, unfolded once *)

Lemma loop_eq row input :
  loop row input =
  match iteration row input with
  | Done out st => (out, st)
  | Again out rest => let (o, st) := loop row rest in (out ++ o, st)
  end.
Proof.
  rewrite loop_equation_1. unfold inspect.
  generalize (@eq_refl _ (iteration row input)).
  generalize (iteration row input) at 2 4 5 as r.
  intros r e. destruct r; simp loop; reflexivity.
Qed.

(** ** Strings *)

Section StringFacts.

Lemma append_nil_r (s : string) : s ++ "" = s.
Proof. induction s as [|c s IH]; cbn; congruence. Qed.

Lemma append_assoc (a b c : string) : (a ++ b) ++ c = a ++ b ++ c.
Proof. induction a as [|x a IH]; cbn; congruence. Qed.

Lemma length_append (a b : string) : length (a ++ b) = length a + length b.
Proof. induction a as [|x a IH]; cbn; congruence. Qed.

Variable p : ascii -> bool.

Lemma take_drop_while (s : string) :
  Str.take_while p s ++ Str.drop_while p s = s.
Proof.
  induction s as [|c s IH]; cbn; [reflexivity|].
  destruct (p c); cbn; congruence.
Qed.

Lemma all_take_while (s : string) : Str.all p (Str.take_while p s) = true.
Proof.
  induction s as [|c s IH]; cbn; [reflexivity|].
  destruct (p c) eqn:E; cbn; [rewrite E|]; auto.
Qed.

Lemma drop_while_head (s : string) c s' :
  Str.drop_while p s = String c s' -> p c = false.
Proof.
  induction s as [|x s IH]; cbn; [discriminate|].
  destruct (p x) eqn:E; [exact IH|]. intros [= <- _]. exact E.
Qed.

Lemma length_drop_while (s : string) :
  length (Str.drop_while p s) <= length s.
Proof.
  induction s as [|c s IH]; cbn; [lia|]. destruct (p c); cbn; lia.
Qed.

Lemma drop_while_all (s : string) :
  Str.all p s = true -> Str.drop_while p s = "".
Proof.
  induction s as [|c s IH]; cbn; [reflexivity|].
  destruct (p c); cbn; [exact IH|discriminate].
Qed.

Lemma all_append (a b : string) :
  Str.all p (a ++ b) = Str.all p a && Str.all p b.
Proof.
  induction a as [|c a IH]; cbn; [reflexivity|].
  rewrite IH. now rewrite andb_assoc.
Qed.

Lemma take_while_append (a b : string) :
  Str.all p a = true ->
  Str.take_while p (a ++ b) = a ++ Str.take_while p b.
Proof.
  induction a as [|c a IH]; cbn; [reflexivity|].
  destruct (p c); cbn; [|discriminate]. intros H. now rewrite IH.
Qed.

Lemma drop_while_append (a b : string) :
  Str.all p a = true ->
  Str.drop_while p (a ++ b) = Str.drop_while p b.
Proof.
  induction a as [|c a IH]; cbn; [reflexivity|].
  destruct (p c); cbn; [exact IH|discriminate].
Qed.

End StringFacts.

(** ** Tokens and [strtok] *)

Lemma tokens_upto_enough n m s :
  length s <= n -> length s <= m -> tokens_upto n s = tokens_upto m s.
Proof.
  revert m s. induction n as [|n IH]; intros m s Hn Hm.
  - destruct s; [|cbn in Hn; lia]. destruct m; reflexivity.
  - destruct m as [|m].
    + destruct s; [reflexivity|cbn in Hm; lia].
    + cbn [tokens_upto].
      pose proof (length_drop_while is_delim s) as L.
      destruct (Str.drop_while is_delim s) as [|c x] eqn:E; [reflexivity|].
      apply drop_while_head in E.
      assert (D : Str.drop_while non_delim (String c x)
                  = Str.drop_while non_delim x).
      { cbn. unfold non_delim at 1. now rewrite E. }
      rewrite D. pose proof (length_drop_while non_delim x) as L'.
      cbn in L. f_equal. apply IH; lia.
Qed.

(** The defining equation of [tokens]: skip the delimiters, take the
    longest run without one, go on after it. *)
Lemma tokens_eq s :
  tokens s =
  match Str.drop_while is_delim s with
  | "" => []
  | start =>
      Str.take_while non_delim start
      :: tokens (Str.drop_while non_delim start)
  end.
Proof.
  unfold tokens. destruct s as [|a s]; [reflexivity|].
  cbn [length tokens_upto].
  pose proof (length_drop_while is_delim (String a s)) as L.
  destruct (Str.drop_while is_delim (String a s)) as [|c x] eqn:E;
    [reflexivity|].
  apply drop_while_head in E.
  assert (D : Str.drop_while non_delim (String c x)
              = Str.drop_while non_delim x).
  { cbn. unfold non_delim at 1. now rewrite E. }
  rewrite D. pose proof (length_drop_while non_delim x) as L'.
  cbn in L. f_equal. apply tokens_upto_enough; lia.
Qed.

Lemma tokens_skip_delim c s : is_delim c = true -> tokens (String c s) = tokens s.
Proof.
  intros H. rewrite (tokens_eq (String c s)), (tokens_eq s).
  cbn. now rewrite H.
Qed.

Lemma tokens_tl_after_token s :
  tokens (Str.tl (Str.drop_while non_delim s))
  = tokens (Str.drop_while non_delim s).
Proof.
  destruct (Str.drop_while non_delim s) as [|c x] eqn:E; [reflexivity|].
  apply drop_while_head in E. cbn. symmetry. apply tokens_skip_delim.
  unfold non_delim in E. now destruct (is_delim c).
Qed.

(** A call of [strtok] returns the first token of what is left of the line,
    and leaves the tokens after it. *)
Lemma strtok_tokens save :
  fst (strtok save) = hd_error (tokens save)
  /\ tokens (snd (strtok save)) = tl (tokens save).
Proof.
  unfold strtok. rewrite (tokens_eq save).
  destruct (Str.drop_while is_delim save) as [|c x]; cbn [fst snd hd_error tl].
  - split; reflexivity.
  - split; [reflexivity|]. apply tokens_tl_after_token.
Qed.

(** A step of the proofs below: name the result of the next [strtok] call
    and express it with the tokens that are left. *)
Ltac next_strtok s c s' :=
  let H := fresh "H" in
  let T := fresh "T" in
  destruct (strtok_tokens s) as [H T];
  destruct (strtok s) as [c s'];
  cbn [fst snd] in H, T; subst c.

(** [dispatch] reads the first token of the line and, for [insert], the
    three that follow; it never looks at the others. *)
Lemma dispatch_tokens row line :
  dispatch row line =
  match tokens line with
  | [] => (Continue, "")
  | command :: args =>
      if (command =? "q") || (command =? "quit") then (Break, "")
      else if command =? "insert" then
        match args with
        | id_string :: username :: email :: _ =>
            match insert row id_string username email with
            | Some out => (Next, out)
            | None => (Undefined, "")
            end
        | _ => (Next, SYNTAX_ERROR)
        end
      else (Next, unrecognized command)
  end.
Proof.
  unfold dispatch.
  next_strtok line c1 s1.
  destruct (tokens line) as [|command args]; cbn [hd_error tl] in *;
    [reflexivity|].
  destruct ((command =? "q") || (command =? "quit")); [reflexivity|].
  destruct (command =? "insert"); [|reflexivity].
  next_strtok s1 c2 s2. next_strtok s2 c3 s3. next_strtok s3 c4 s4.
  rewrite T in *. clear T.
  destruct args as [|a1 [|a2 [|a3 rest]]]; cbn [hd_error tl] in *;
    repeat match goal with H : tokens _ = _ |- _ => rewrite H in *; clear H end;
    cbn [hd_error tl] in *; reflexivity.
Qed.

(** ** The bytes of [struct Row] *)

Lemma poke_str_below m i s j : j < i -> poke_str m i s j = m j.
Proof.
  revert m i. induction s as [|c s IH]; intros m i H; cbn.
  - unfold poke. destruct (Nat.eqb_spec j i); [lia|reflexivity].
  - rewrite IH by lia. unfold poke.
    destruct (Nat.eqb_spec j i); [lia|reflexivity].
Qed.

Lemma poke_str_bytes m i s : bytes_at (poke_str m i s) i s.
Proof.
  revert m i. induction s as [|c s IH]; intros m i; cbn; [exact I|].
  split; [|apply IH].
  rewrite poke_str_below by lia. unfold poke. now rewrite Nat.eqb_refl.
Qed.

Lemma poke_str_nul m i s : poke_str m i s (i + length s) = NUL.
Proof.
  revert m i. induction s as [|c s IH]; intros m i; cbn.
  - unfold poke. rewrite Nat.add_0_r. now rewrite Nat.eqb_refl.
  - rewrite <- Nat.add_succ_comm. apply IH.
Qed.

Lemma bytes_at_ext m m' i w :
  (forall j, i <= j < i + length w -> m' j = m j) ->
  bytes_at m i w -> bytes_at m' i w.
Proof.
  revert i. induction w as [|c w IH]; intros i E H; cbn in *; [exact I|].
  destruct H as [H1 H2]. split.
  - rewrite E by lia. exact H1.
  - apply IH; [|exact H2]. intros j Hj. apply E. lia.
Qed.

Lemma bytes_at_append m i a b :
  bytes_at m i a -> bytes_at m (i + length a) b -> bytes_at m i (a ++ b).
Proof.
  revert i. induction a as [|c a IH]; intros i Ha Hb; cbn in *.
  - now rewrite Nat.add_0_r in Hb.
  - destruct Ha as [H1 H2]. split; [exact H1|].
    apply IH; [exact H2|]. now rewrite Nat.add_succ_comm.
Qed.

Lemma bytes_at_take m i w n : bytes_at m i w -> bytes_at m i (Str.take n w).
Proof.
  unfold Str.take. revert i w. induction n as [|n IH]; intros i w H.
  - destruct w; exact I.
  - destruct w as [|c w]; cbn in *; [exact I|].
    destruct H as [H1 H2]. split; [exact H1|]. now apply IH.
Qed.

(** [%s] prints the bytes that stand before the first NUL. *)
Lemma peek_str_bytes m i n w :
  bytes_at m i w -> m (i + length w) = NUL -> no_nul w = true ->
  length w < n -> peek_str m i n = Some w.
Proof.
  revert i n. induction w as [|c w IH]; intros i n B Z N L; cbn in *.
  - destruct n as [|n]; [lia|]. cbn.
    rewrite Nat.add_0_r in Z. rewrite Z. reflexivity.
  - destruct n as [|n]; [lia|]. cbn.
    destruct B as [B1 B2]. rewrite B1.
    apply andb_prop in N. destruct N as [N1 N2].
    apply negb_true_iff in N1. rewrite N1.
    rewrite (IH (S i) n); try assumption; try lia; [reflexivity|].
    now rewrite Nat.add_succ_comm.
Qed.

Lemma length_take n s : length (Str.take n s) = Nat.min n (length s).
Proof.
  unfold Str.take. revert s. induction n as [|n IH]; intros [|c s]; cbn;
    try reflexivity. now rewrite IH.
Qed.

Lemma all_take p n s : Str.all p s = true -> Str.all p (Str.take n s) = true.
Proof.
  unfold Str.take. revert s. induction n as [|n IH]; intros [|c s]; cbn;
    try reflexivity. intros H. apply andb_prop in H. destruct H as [-> H].
  cbn. now apply IH.
Qed.

Lemma strcpy_inside row off src :
  off + length src + 1 <= CHARS_SIZE ->
  strcpy row off src = Some (mkRow (id row) (poke_str (chars row) off src)).
Proof.
  intros H. unfold strcpy.
  destruct (Nat.leb_spec (off + length src + 1) CHARS_SIZE); [reflexivity|lia].
Qed.

(** The accepted [insert], for tokens that stay inside [struct Row]. *)
Lemma insert_spec row id_string username email :
  no_nul username = true -> no_nul email = true ->
  length username < CHARS_SIZE -> length email < EMAIL_SIZE ->
  insert row id_string username email
  = Some (inserted (atoi id_string) (username_shown username email) email).
Proof.
  intros Nu Ne Lu Le. unfold insert.
  change EMAIL_OFFSET with 32. change USERNAME_OFFSET with 0.
  change CHARS_SIZE with 287 in *. change EMAIL_SIZE with 255 in *.
  rewrite strcpy_inside by (cbn [chars id]; change CHARS_SIZE with 287; lia).
  rewrite strcpy_inside by (cbn [chars id]; change CHARS_SIZE with 287; lia).
  unfold printf_s. cbn [id chars]. change CHARS_SIZE with 287.
  set (m1 := poke_str (chars row) 0 username).
  set (m2 := poke_str m1 32 email).
  assert (E : peek_str m2 32 (287 - 32) = Some email).
  { apply peek_str_bytes; try assumption; try lia.
    - apply poke_str_bytes.
    - apply poke_str_nul. }
  rewrite E.
  assert (U : peek_str m2 0 (287 - 0)
              = Some (username_shown username email)).
  { unfold username_shown, USERNAME_SIZE.
    destruct (Nat.ltb_spec (length username) 32) as [F|F].
    - apply peek_str_bytes; try assumption; try lia.
      + apply (bytes_at_ext m1); [|apply poke_str_bytes].
        intros j Hj. apply poke_str_below. lia.
      + unfold m2. rewrite poke_str_below by lia. apply poke_str_nul.
    - apply peek_str_bytes.
      + apply bytes_at_append.
        * apply (bytes_at_ext m1).
          -- intros j Hj. apply poke_str_below.
             rewrite length_take in Hj. lia.
          -- apply bytes_at_take, poke_str_bytes.
        * rewrite length_take, Nat.min_l by lia. apply poke_str_bytes.
      + rewrite length_append, length_take, Nat.min_l by lia.
        rewrite Nat.add_0_l. apply poke_str_nul.
      + unfold no_nul in *. rewrite all_append, all_take by assumption.
        now rewrite Ne.
      + rewrite length_append, length_take. lia. }
  rewrite U. reflexivity.
Qed.

(** ** What the tokens of a line are made of *)

Section TokenFacts.

Variable p : ascii -> bool.

Lemma all_take_while_of q s :
  Str.all p s = true -> Str.all p (Str.take_while q s) = true.
Proof.
  induction s as [|c s IH]; cbn; [reflexivity|].
  intros H. apply andb_prop in H. destruct H as [Hc Hs].
  destruct (q c); cbn; [|reflexivity]. rewrite Hc. now apply IH.
Qed.

Lemma all_drop_while_of q s :
  Str.all p s = true -> Str.all p (Str.drop_while q s) = true.
Proof.
  induction s as [|c s IH]; cbn; [reflexivity|].
  intros H. destruct (q c); [|exact H].
  apply andb_prop in H. now apply IH.
Qed.

Lemma tokens_upto_all n s :
  Str.all p s = true ->
  Forall (fun t => Str.all p t = true) (tokens_upto n s).
Proof.
  revert s. induction n as [|n IH]; intros s H; cbn [tokens_upto];
    [constructor|].
  pose proof (all_drop_while_of is_delim s H) as D.
  destruct (Str.drop_while is_delim s) as [|c x]; constructor.
  - now apply all_take_while_of.
  - apply IH. now apply all_drop_while_of.
Qed.

End TokenFacts.

Lemma length_take_while p s : length (Str.take_while p s) <= length s.
Proof.
  induction s as [|c s IH]; cbn; [lia|]. destruct (p c); cbn; lia.
Qed.

Lemma tokens_upto_total_length n s :
  list_sum (map length (tokens_upto n s)) <= length s.
Proof.
  revert s. induction n as [|n IH]; intros s; cbn [tokens_upto];
    [cbn; lia|].
  pose proof (length_drop_while is_delim s) as D.
  destruct (Str.drop_while is_delim s) as [|c x]; [cbn; lia|].
  cbn [map list_sum fold_right].
  specialize (IH (Str.drop_while non_delim (String c x))).
  pose proof (f_equal length (take_drop_while non_delim (String c x))) as E.
  rewrite length_append in E. change (fold_right Nat.add 0) with list_sum.
  lia.
Qed.

Lemma no_nul_line_of bytes : no_nul (line_of bytes) = true.
Proof.
  unfold no_nul, line_of, chomp, c_str.
  apply all_take_while_of, all_take_while.
Qed.

Lemma length_line_of bytes : length (line_of bytes) <= length bytes.
Proof.
  unfold line_of, chomp, c_str.
  etransitivity; [apply length_take_while|apply length_take_while].
Qed.

Lemma length_fgets_read n s : length (fst (fgets_read n s)) <= n.
Proof.
  revert s. induction n as [|n IH]; intros [|c s]; cbn; try lia.
  destruct (Ascii.eqb c LF); cbn; [lia|].
  specialize (IH s). destruct (fgets_read n s); cbn in *. lia.
Qed.

Lemma fgets_length size input bytes rest :
  fgets size input = Some (bytes, rest) -> length bytes <= size - 1.
Proof.
  destruct input as [|c s]; [discriminate|]. unfold fgets.
  intros [= E]. pose proof (length_fgets_read (size - 1) (String c s)) as L.
  now rewrite E in L.
Qed.

(** The tokens of the line that [fgets] read into [buf] have no NUL and are
    together shorter than [buf]. *)
Lemma line_tokens bytes :
  Forall (fun t => no_nul t = true) (tokens (line_of bytes))
  /\ list_sum (map length (tokens (line_of bytes))) <= length bytes.
Proof.
  split.
  - apply tokens_upto_all. apply no_nul_line_of.
  - etransitivity; [apply tokens_upto_total_length|apply length_line_of].
Qed.

(** An accepted [insert] on a line that [fgets] read stays inside
    [struct Row]. *)
Lemma body_insert row bytes id_string username email more :
  length bytes <= 255 ->
  tokens (line_of bytes) = "insert" :: id_string :: username :: email :: more ->
  body row bytes
  = (Next, inserted (atoi id_string) (username_shown username email) email
           ++ PROMPT).
Proof.
  intros L T. unfold body. rewrite dispatch_tokens, T.
  destruct (line_tokens bytes) as [N S]. rewrite T in N, S.
  cbn [map list_sum fold_right length] in S.
  inversion N as [|? ? _ N1]; subst. inversion N1 as [|? ? _ N2]; subst.
  inversion N2 as [|? ? Nu N3]; subst. inversion N3 as [|? ? Ne _]; subst.
  cbn [String.eqb Ascii.eqb Bool.eqb orb].
  rewrite insert_spec; try assumption; [reflexivity| |].
  - change CHARS_SIZE with 287. lia.
  - change EMAIL_SIZE with 255. lia.
Qed.

(** ** One pass of the loop, by the tokens of the line read *)

Lemma tokens_blank line : Str.all is_delim line = true -> tokens line = [].
Proof. intros H. rewrite tokens_eq, drop_while_all; auto. Qed.

Lemma body_blank row bytes :
  tokens (line_of bytes) = [] -> body row bytes = (Continue, "").
Proof. intros T. unfold body. now rewrite dispatch_tokens, T. Qed.

Lemma body_quit row bytes command args :
  tokens (line_of bytes) = command :: args ->
  command = "q" \/ command = "quit" ->
  body row bytes = (Break, "").
Proof.
  intros T H. unfold body. rewrite dispatch_tokens, T.
  destruct H as [-> | ->]; reflexivity.
Qed.

Lemma body_syntax_error row bytes args :
  tokens (line_of bytes) = "insert" :: args -> List.length args < 3 ->
  body row bytes = (Next, SYNTAX_ERROR ++ PROMPT).
Proof.
  intros T L. unfold body. rewrite dispatch_tokens, T.
  cbn [String.eqb Ascii.eqb Bool.eqb orb].
  destruct args as [|a1 [|a2 [|a3 rest]]]; try reflexivity. cbn in L. lia.
Qed.

Lemma body_unrecognized row bytes command args :
  tokens (line_of bytes) = command :: args ->
  command <> "insert" -> command <> "q" -> command <> "quit" ->
  body row bytes = (Next, unrecognized command ++ PROMPT).
Proof.
  intros T Hi Hq Hquit. unfold body. rewrite dispatch_tokens, T.
  apply String.eqb_neq in Hi, Hq, Hquit. now rewrite Hi, Hq, Hquit.
Qed.

(** The cases of [body], on a line that [fgets] read. *)
Lemma body_cases row bytes :
  length bytes <= 255 ->
  match tokens (line_of bytes) with
  | [] => body row bytes = (Continue, "")
  | command :: args =>
      if (command =? "q") || (command =? "quit")
      then body row bytes = (Break, "")
      else exists out, body row bytes = (Next, out ++ PROMPT)
  end.
Proof.
  intros L. destruct (tokens (line_of bytes)) as [|command args] eqn:T.
  - now apply body_blank.
  - destruct (String.eqb_spec command "q") as [->|Hq].
    { cbn. eapply body_quit; eauto. }
    destruct (String.eqb_spec command "quit") as [->|Hquit].
    { cbn. eapply body_quit; eauto. }
    cbn [orb].
    destruct (String.eqb_spec command "insert") as [->|Hi].
    + destruct args as [|a1 [|a2 [|a3 more]]];
        try (exists SYNTAX_ERROR; eapply body_syntax_error; eauto; cbn; lia).
      eexists. eapply body_insert; eauto.
    + eexists. eapply body_unrecognized; eauto.
Qed.

Lemma iteration_read row input bytes rest :
  fgets 256 input = Some (bytes, rest) ->
  iteration row input =
  match body row bytes with
  | (Break, out) => Done out (Exited 0)
  | (Undefined, out) => Done out Crashed
  | (_, out) => Again out rest
  end.
Proof. intros E. unfold iteration. now rewrite E. Qed.

(** ** An input followed by one more line *)

Lemma with_line_eq fresh s l :
  (if at_line_start fresh s then s else s ++ nl) ++ l ++ nl
  = append_line fresh s l.
Proof.
  revert fresh. induction s as [|c s IH]; intros fresh; cbn.
  - destruct fresh; reflexivity.
  - rewrite <- IH. destruct (at_line_start (Ascii.eqb c LF) s); reflexivity.
Qed.

Lemma take_while_twice p q s :
  Str.take_while q (Str.take_while p s)
  = Str.take_while (fun c => p c && q c) s.
Proof.
  induction s as [|c s IH]; cbn; [reflexivity|].
  destruct (p c); cbn; [|reflexivity].
  destruct (q c); cbn; [|reflexivity]. now rewrite IH.
Qed.

Lemma line_of_eq bytes : line_of bytes = Str.take_while line_byte bytes.
Proof. unfold line_of, chomp, c_str. apply take_while_twice. Qed.

Lemma line_of_cons c a b :
  line_of a = line_of b -> line_of (String c a) = line_of (String c b).
Proof.
  rewrite !line_of_eq. cbn. intros ->. reflexivity.
Qed.

Lemma body_line_of row a b : line_of a = line_of b -> body row a = body row b.
Proof. unfold body. now intros ->. Qed.

Section AppendLine.

Variable l : string.

(** Reading a line of the input followed by the line [l]: the same command
    line comes out, and what is left is what was left, followed by [l]
    (after an empty line when the input stopped in a full buffer). *)
Lemma fgets_read_append_line n s :
  let (b, r) := fgets_read n s in
  let (b', r') := fgets_read n (append_line false s l) in
  line_of b' = line_of b
  /\ (r' = append_line true r l \/ r = "" /\ r' = nl ++ l ++ nl)
  /\ (s <> "" -> append_line false s l = append_line true s l).
Proof.
  revert s. induction n as [|n IH]; intros s.
  - cbn [fgets_read]. split; [reflexivity|].
    destruct s as [|c s]; cbn.
    + split; [right; auto|]. congruence.
    + split; [left|]; reflexivity.
  - destruct s as [|c s].
    + cbn. split; [reflexivity|]. split; [left; reflexivity|congruence].
    + cbn [append_line fgets_read].
      destruct (Ascii.eqb c LF) eqn:E.
      * split; [reflexivity|]. split; [left|]; reflexivity.
      * specialize (IH s). destruct (fgets_read n s) as [b r].
        destruct (fgets_read n (append_line false s l)) as [b' r'].
        destruct IH as (IH1 & IH2 & _).
        split; [now apply line_of_cons|]. split; [exact IH2|reflexivity].
Qed.

Lemma fgets_with_line size input bytes rest :
  fgets size input = Some (bytes, rest) ->
  exists bytes' rest',
    fgets size (with_line input l) = Some (bytes', rest')
    /\ line_of bytes' = line_of bytes
    /\ (rest' = with_line rest l \/ rest = "" /\ rest' = nl ++ l ++ nl).
Proof.
  unfold with_line. rewrite !with_line_eq.
  destruct input as [|c s]; [discriminate|]. unfold fgets at 1.
  intros [= E].
  pose proof (fgets_read_append_line (size - 1) (String c s)) as H.
  rewrite E in H.
  destruct (fgets_read (size - 1) (append_line false (String c s) l))
    as [b' r'] eqn:E'.
  destruct H as (H1 & H2 & H3).
  exists b', r'. split; [|split; assumption].
  rewrite <- H3 by discriminate.
  cbn [append_line] in *. unfold fgets. now rewrite E'.
Qed.

End AppendLine.

(** ** The loop *)

(** What a pass does, by what [fgets] returns and the first token read. *)
Lemma iteration_cases row input :
  match fgets 256 input with
  | None => iteration row input = Done "" (Exited 0)
  | Some (bytes, rest) =>
      match tokens (line_of bytes) with
      | [] => iteration row input = Again "" rest
      | command :: _ =>
          if is_quit command
          then iteration row input = Done "" (Exited 0)
          else exists out, iteration row input = Again (out ++ PROMPT) rest
      end
  end.
Proof.
  destruct (fgets 256 input) as [[bytes rest]|] eqn:E; [|unfold iteration; now rewrite E].
  rewrite (iteration_read _ _ _ _ E).
  pose proof (fgets_length _ _ _ _ E) as L. cbn in L.
  pose proof (body_cases row bytes L) as B.
  destruct (tokens (line_of bytes)) as [|command args].
  - now rewrite B.
  - unfold is_quit. destruct ((command =? "q") || (command =? "quit")).
    + now rewrite B.
    + destruct B as [out ->]. now exists out.
Qed.

(** The loop is always left by [break], never by a crash. *)
Lemma loop_exits row input : snd (loop row input) = Exited 0.
Proof.
  remember (length input) as n eqn:E. revert input E.
  induction n as [n IH] using lt_wf_ind. intros input ->.
  rewrite loop_eq. pose proof (iteration_cases row input) as C.
  destruct (iteration row input) as [out st|out rest] eqn:It.
  - destruct (fgets 256 input) as [[bytes r]|]; [|now injection C as _ ->].
    destruct (tokens (line_of bytes)) as [|command args]; [discriminate|].
    destruct (is_quit command); [now injection C as _ ->|].
    destruct C as [? C]. discriminate.
  - pose proof (iteration_shorter _ _ _ _ It) as S.
    specialize (IH _ S rest eq_refl). now destruct (loop row rest).
Qed.

Lemma loop_quit_line row : loop row ("quit" ++ nl) = ("", Exited 0).
Proof. rewrite loop_eq. reflexivity. Qed.

Lemma loop_empty_then_quit_line row :
  loop row (nl ++ "quit" ++ nl) = ("", Exited 0).
Proof.
  rewrite loop_eq. cbn. rewrite loop_eq. reflexivity.
Qed.

Lemma loop_eof row : loop row "" = ("", Exited 0).
Proof. rewrite loop_eq. reflexivity. Qed.

(** An input that ends and the same input followed by a [quit] line give the
    same run. *)
Lemma loop_with_quit_line row input :
  loop row (with_line input "quit") = loop row input.
Proof.
  remember (length input) as n eqn:E. revert input E.
  induction n as [n IH] using lt_wf_ind. intros input ->.
  destruct (fgets 256 input) as [[bytes rest]|] eqn:F.
  - destruct (fgets_with_line "quit" _ _ _ _ F) as (b' & r' & F' & L & R).
    rewrite (loop_eq row input), (loop_eq row (with_line input "quit")).
    rewrite (iteration_read _ _ _ _ F), (iteration_read _ _ _ _ F').
    rewrite (body_line_of row _ _ L).
    assert (G : loop row r' = loop row rest).
    { destruct R as [-> | [-> ->]].
      - apply (IH (length rest)); [|reflexivity].
        now apply (fgets_shorter 254) in F.
      - now rewrite loop_empty_then_quit_line, loop_eof. }
    destruct (body row bytes) as [[] out]; try reflexivity; now rewrite G.
  - destruct input; [|discriminate].
    change (with_line "" "quit") with ("quit" ++ nl).
    now rewrite loop_quit_line, loop_eof.
Qed.

(** ** Splitting at spaces *)

Lemma drop_while_stops p c s : p c = false -> Str.drop_while p (String c s) = String c s.
Proof. intros H. cbn. now rewrite H. Qed.

Lemma tokens_split s : split_at_spaces s (tokens s).
Proof.
  remember (length s) as n eqn:E. revert s E.
  induction n as [n IH] using lt_wf_ind. intros s ->.
  rewrite tokens_eq. rewrite <- (take_drop_while is_delim s) at 1.
  pose proof (length_drop_while is_delim s) as L.
  destruct (Str.drop_while is_delim s) as [|c x] eqn:D.
  - rewrite append_nil_r. constructor. apply all_take_while.
  - apply drop_while_head in D.
    assert (Nc : non_delim c = true) by (unfold non_delim; now rewrite D).
    rewrite <- (take_drop_while non_delim (String c x)) at 1.
    pose proof (length_drop_while non_delim x) as L'.
    assert (R : Str.drop_while non_delim (String c x)
                = Str.drop_while non_delim x) by (cbn; now rewrite Nc).
    apply split_token.
    + apply all_take_while.
    + cbn. now rewrite Nc.
    + apply all_take_while.
    + destruct (Str.drop_while non_delim (String c x)) as [|d r] eqn:D';
        [now left|right].
      apply drop_while_head in D'. unfold non_delim in D'.
      apply negb_false_iff, Ascii.eqb_eq in D'. subst d. now exists r.
    + rewrite R. apply (IH (length (Str.drop_while non_delim x)));
        [cbn in L; lia|reflexivity].
Qed.

Lemma split_tokens s ts : split_at_spaces s ts -> tokens s = ts.
Proof.
  induction 1 as [sp H|sp t rest ts Hsp Ht Hn Hr _ IH].
  - now apply tokens_blank.
  - rewrite tokens_eq, drop_while_append by assumption.
    destruct t as [|c t]; [congruence|].
    cbn in Hn. apply andb_prop in Hn. destruct Hn as [Hc Hn].
    assert (Dc : is_delim c = false).
    { unfold non_delim in Hc. now apply negb_true_iff in Hc. }
    change (String c t ++ rest) with (String c (t ++ rest)).
    rewrite drop_while_stops by assumption. cbv beta iota zeta.
    change (String c (t ++ rest)) with (String c t ++ rest).
    assert (A : Str.all non_delim (String c t) = true) by (cbn; now rewrite Hc).
    rewrite take_while_append, drop_while_append by assumption.
    destruct Hr as [-> | [r ->]]; cbn [Str.take_while Str.drop_while].
    + rewrite append_nil_r. now rewrite <- IH.
    + change (non_delim SP) with false. cbn iota.
      rewrite append_nil_r. now rewrite <- IH.
Qed.

(** ** [atoi] on a token *)

Lemma digits_value_no_digit acc s :
  match s with String d _ => isdigit d | EmptyString => false end = false ->
  digits_value acc s = acc.
Proof. destruct s as [|d s]; cbn; [reflexivity|]. now intros ->. Qed.

Lemma atoi_no_digits s : has_leading_digits s = false -> atoi s = 0%Z.
Proof.
  unfold has_leading_digits, atoi, strtol.
  destruct (Str.drop_while isspace s) as [|c s']; [reflexivity|].
  destruct (Ascii.eqb c "-"); cbn [orb].
  - intros H. now rewrite digits_value_no_digit.
  - destruct (Ascii.eqb c "+"); cbn [orb]; intros H.
    + now rewrite digits_value_no_digit.
    + now rewrite digits_value_no_digit.
Qed.

(** ** Reading a long line *)

Lemma fgets_read_line n d t :
  no_lf d = true ->
  fgets_read n (d ++ nl ++ t)
  = (Str.take n (d ++ nl), Str.drop n (d ++ nl) ++ t).
Proof.
  unfold no_lf. revert d. induction n as [|n IH]; intros d H.
  - cbn. rewrite append_assoc. now destruct (d ++ nl).
  - destruct d as [|c d].
    + destruct n; reflexivity.
    + cbn in H. apply andb_prop in H. destruct H as [Hc H].
      apply negb_true_iff in Hc.
      change (String c d ++ nl ++ t) with (String c (d ++ nl ++ t)).
      cbn [fgets_read]. rewrite Hc, IH by assumption. reflexivity.
Qed.

Lemma take_append_long n a b :
  n <= length a -> Str.take n (a ++ b) = Str.take n a.
Proof.
  revert a. induction n as [|n IH]; intros [|c a] H; cbn in *;
    try lia; try reflexivity.
  - now destruct b.
  - change (substring 0 n (a ++ b)) with (Str.take n (a ++ b)).
    change (substring 0 n a) with (Str.take n a). rewrite IH; [reflexivity|lia].
Qed.

Lemma drop_append_long n a b :
  n <= length a -> Str.drop n (a ++ b) = Str.drop n a ++ b.
Proof.
  revert a. induction n as [|n IH]; intros [|c a] H; cbn in *;
    try lia; try reflexivity. apply IH. lia.
Qed.

Lemma all_drop p n s : Str.all p s = true -> Str.all p (Str.drop n s) = true.
Proof.
  revert s. induction n as [|n IH]; intros [|c s] H; cbn in *; auto.
  apply andb_prop in H. now apply IH.
Qed.

Lemma bytes_at_drop m i w n :
  n <= length w -> bytes_at m i w -> bytes_at m (i + n) (Str.drop n w).
Proof.
  revert i w. induction n as [|n IH]; intros i w L H.
  - now rewrite Nat.add_0_r.
  - destruct w as [|c w]; cbn in *; [lia|]. destruct H as [_ H].
    rewrite <- Nat.add_succ_comm. apply IH; [lia|exact H].
Qed.

(** ** What a pass prints for each kind of line *)

Lemma iteration_insert row input bytes rest id_string username email more :
  fgets 256 input = Some (bytes, rest) ->
  tokens (line_of bytes) = "insert" :: id_string :: username :: email :: more ->
  iteration row input
  = Again (inserted (atoi id_string) (username_shown username email) email
           ++ PROMPT) rest.
Proof.
  intros F T. rewrite (iteration_read _ _ _ _ F).
  pose proof (fgets_length _ _ _ _ F) as L. cbn in L.
  now rewrite (body_insert row bytes _ _ _ _ L T).
Qed.

Lemma inserted_prompt n username email :
  inserted n username email ++ PROMPT
  = "inserted ID " ++ printf_d n ++ ", user " ++ username
    ++ ", email " ++ email ++ nl ++ PROMPT.
Proof. unfold inserted. now rewrite !append_assoc. Qed.

Lemma username_shown_fits username email :
  length username < USERNAME_SIZE -> username_shown username email = username.
Proof.
  intros H. unfold username_shown.
  destruct (Nat.ltb_spec (length username) USERNAME_SIZE); [reflexivity|lia].
Qed.

Lemma username_shown_long username email :
  USERNAME_SIZE <= length username ->
  username_shown username email = Str.take USERNAME_SIZE username ++ email.
Proof.
  intros H. unfold username_shown.
  destruct (Nat.ltb_spec (length username) USERNAME_SIZE); [lia|reflexivity].
Qed.

Lemma loop_again row input out rest :
  iteration row input = Again out rest ->
  loop row input = (out ++ fst (loop row rest), snd (loop row rest)).
Proof. intros H. rewrite loop_eq, H. now destruct (loop row rest). Qed.

Lemma fgets_line size d t :
  no_lf d = true ->
  fgets size (d ++ nl ++ t)
  = Some (Str.take (size - 1) (d ++ nl), Str.drop (size - 1) (d ++ nl) ++ t).
Proof.
  intros H. rewrite <- (fgets_read_line (size - 1) d t H).
  unfold fgets. destruct d; reflexivity.
Qed.

(** ** A whole line of the input *)

Lemma take_drop_all n s :
  length s <= n -> Str.take n s = s /\ Str.drop n s = "".
Proof.
  unfold Str.take. revert s. induction n as [|n IH]; intros [|c s] L;
    cbn in *; try lia; auto.
  destruct (IH s) as [-> ->]; [lia|]. auto.
Qed.

Lemma fgets_short_line l rest :
  no_lf l = true -> length l < 255 ->
  fgets 256 (l ++ nl ++ rest) = Some (l ++ nl, rest).
Proof.
  intros N L. rewrite (fgets_line 256 l rest N). change (256 - 1) with 255.
  destruct (take_drop_all 255 (l ++ nl)) as [-> ->]; [|reflexivity].
  rewrite length_append. cbn. lia.
Qed.

Lemma take_while_stop p a c b :
  p c = false -> Str.take_while p (a ++ String c b) = Str.take_while p a.
Proof.
  intros H. induction a as [|x a IH]; cbn; [now rewrite H|].
  now rewrite IH.
Qed.

Lemma fgets_read_all n l :
  no_lf l = true -> length l <= n -> fgets_read n l = (l, "").
Proof.
  unfold no_lf. revert l. induction n as [|n IH]; intros [|c l] N L;
    cbn in *; try lia; try reflexivity.
  apply andb_prop in N. destruct N as [Nc N].
  apply negb_true_iff in Nc. rewrite Nc, IH; [reflexivity|exact N|lia].
Qed.

Lemma fgets_last_line l :
  no_lf l = true -> length l < 255 -> l <> "" ->
  fgets 256 l = Some (l, "").
Proof.
  intros N L E. destruct l as [|c l]; [congruence|].
  unfold fgets. change (256 - 1) with 255.
  rewrite fgets_read_all; [reflexivity|exact N|lia].
Qed.

Lemma line_of_newline l : line_of (l ++ nl) = line_of l.
Proof. rewrite !line_of_eq. now apply take_while_stop. Qed.

(** A pass on a line shorter than the buffer, ended by its newline or by
    the end of the input, is the loop body on this line. *)
Lemma iteration_line row l rest :
  no_lf l = true -> length l < 255 ->
  iteration row (l ++ nl ++ rest)
  = match body row l with
    | (Break, out) => Done out (Exited 0)
    | (Undefined, out) => Done out Crashed
    | (_, out) => Again out rest
    end.
Proof.
  intros N L. rewrite (iteration_read _ _ _ _ (fgets_short_line l rest N L)).
  now rewrite (body_line_of row _ _ (line_of_newline l)).
Qed.

Lemma iteration_last_line row l :
  no_lf l = true -> length l < 255 -> l <> "" ->
  iteration row l
  = match body row l with
    | (Break, out) => Done out (Exited 0)
    | (Undefined, out) => Done out Crashed
    | (_, out) => Again out ""
    end.
Proof.
  intros N L E. now rewrite (iteration_read _ _ _ _ (fgets_last_line l N L E)).
Qed.

Lemma tokens_nonempty l t ts : tokens l = t :: ts -> l <> "".
Proof. intros H ->. discriminate. Qed.

(** *** The tokens of the line and those of the C string in [buf] *)

Lemma all_and p q s :
  Str.all (fun c => p c && q c) s = Str.all p s && Str.all q s.
Proof.
  induction s as [|c s IH]; cbn; [reflexivity|]. rewrite IH.
  destruct (p c), (q c), (Str.all p s); reflexivity.
Qed.

Lemma all_line_byte s :
  no_nul s = true -> no_lf s = true -> Str.all line_byte s = true.
Proof.
  unfold no_nul, no_lf, line_byte. intros Hn Hl. now rewrite all_and, Hn, Hl.
Qed.

Lemma all_delim_line_byte sp :
  Str.all is_delim sp = true -> Str.all line_byte sp = true.
Proof.
  induction sp as [|c sp IH]; cbn; [reflexivity|]. intros H.
  apply andb_prop in H. destruct H as [Hc H].
  apply Ascii.eqb_eq in Hc. subst c. now rewrite IH.
Qed.

Lemma line_of_whole l :
  no_nul l = true -> no_lf l = true -> line_of l = l.
Proof.
  intros Hn Hl. pose proof (all_line_byte l Hn Hl) as A.
  rewrite line_of_eq. clear Hn Hl.
  induction l as [|c l IH]; cbn in *; [reflexivity|].
  apply andb_prop in A. destruct A as [-> A]. now rewrite IH.
Qed.

Lemma take_while_cut p a b :
  Str.all p a = false ->
  Str.take_while p (a ++ b) = Str.take_while p a.
Proof.
  induction a as [|c a IH]; cbn; [discriminate|].
  destruct (p c); cbn; [|reflexivity]. intros H. now rewrite IH.
Qed.

Lemma tokens_cons_run sp t rest :
  Str.all is_delim sp = true ->
  t <> "" -> Str.all non_delim t = true ->
  rest = "" \/ (exists r, rest = String SP r) ->
  tokens (sp ++ t ++ rest) = t :: tokens rest.
Proof.
  intros Hsp Ht Hn Hr. apply split_tokens.
  apply split_token; try assumption. apply tokens_split.
Qed.

Lemma line_of_after_space rest :
  rest = "" \/ (exists r, rest = String SP r) ->
  line_of rest = "" \/ (exists r, line_of rest = String SP r).
Proof.
  rewrite line_of_eq. intros [-> | [r ->]]; [now left|right].
  cbn. eexists. reflexivity.
Qed.

(** The first token of a line and the line after it; then the same for the
    C string, which ends at the first NUL: it has this token too when the
    token holds no NUL, and one token at most when it does. *)
Lemma tokens_cut_step s :
  tokens s = [] /\ tokens (line_of s) = []
  \/ exists t rest,
       tokens s = t :: tokens rest /\ length rest < length s
       /\ (Str.all line_byte t = true
             /\ tokens (line_of s) = t :: tokens (line_of rest)
           \/ Str.all line_byte t = false
              /\ List.length (tokens (line_of s)) <= 1).
Proof.
  pose proof (take_drop_while is_delim s) as Es.
  pose proof (all_take_while is_delim s) as Hsp.
  pose proof (length_drop_while is_delim s) as Ls.
  set (sp := Str.take_while is_delim s) in *.
  assert (Ts : tokens s = tokens (Str.drop_while is_delim s)).
  { rewrite <- Es at 1. rewrite tokens_eq, drop_while_append by exact Hsp.
    now rewrite <- tokens_eq. }
  assert (Cs : line_of s
               = sp ++ Str.take_while line_byte (Str.drop_while is_delim s)).
  { rewrite <- Es at 1. rewrite line_of_eq.
    apply take_while_append. now apply all_delim_line_byte. }
  destruct (Str.drop_while is_delim s) as [|c x] eqn:D.
  - left. split; [exact Ts|]. rewrite Cs. cbn. rewrite append_nil_r.
    now apply tokens_blank.
  - right. apply drop_while_head in D.
    assert (Nc : non_delim c = true) by (unfold non_delim; now rewrite D).
    set (start := String c x) in *.
    set (t := Str.take_while non_delim start).
    set (rest := Str.drop_while non_delim start).
    assert (Et : start = t ++ rest)
      by (symmetry; apply take_drop_while).
    assert (Ht : t <> "") by (unfold t, start; cbn; now rewrite Nc).
    assert (Hn : Str.all non_delim t = true) by apply all_take_while.
    assert (Hr : rest = "" \/ (exists r, rest = String SP r)).
    { unfold rest. destruct (Str.drop_while non_delim start) as [|d r] eqn:D';
        [now left|right].
      apply drop_while_head in D'. unfold non_delim in D'.
      apply negb_false_iff, Ascii.eqb_eq in D'. subst d. now exists r. }
    assert (Lr : length rest < length s).
    { unfold rest, start. cbn [Str.drop_while]. rewrite Nc.
      pose proof (length_drop_while non_delim x). cbn in Ls. lia. }
    exists t, rest. split; [|split; [exact Lr|]].
    + rewrite Ts, Et. rewrite <- (tokens_cons_run "" t rest); auto.
    + rewrite Cs, Et. destruct (Str.all line_byte t) eqn:A; [left|right];
        (split; [reflexivity|]).
      * rewrite take_while_append by exact A. rewrite <- line_of_eq.
        apply tokens_cons_run; auto. now apply line_of_after_space.
      * rewrite take_while_cut by exact A.
        destruct (Str.take_while line_byte t) as [|d t0] eqn:E.
        -- rewrite append_nil_r, tokens_blank by exact Hsp. cbn. lia.
        -- rewrite <- (append_nil_r (String d t0)), <- E.
           rewrite tokens_cons_run; auto.
           ++ rewrite E. discriminate.
           ++ now apply all_take_while_of.
Qed.

Lemma tokens_cut_length s :
  List.length (tokens (line_of s)) <= List.length (tokens s).
Proof.
  remember (length s) as n eqn:E. revert s E.
  induction n as [n IH] using lt_wf_ind. intros s ->.
  destruct (tokens_cut_step s) as [[-> ->]|(t & rest & -> & L & H)];
    [reflexivity|].
  destruct H as [[_ ->]|[_ H]]; cbn.
  - specialize (IH _ L rest eq_refl). lia.
  - lia.
Qed.

(** The C string keeps the leading tokens that hold no NUL. *)
Lemma tokens_cut_prefix ts s more :
  tokens s = (ts ++ more)%list ->
  Forall (fun t => Str.all line_byte t = true) ts ->
  exists more',
    tokens (line_of s) = (ts ++ more')%list
    /\ List.length more' <= List.length more.
Proof.
  revert s. induction ts as [|t ts IH]; intros s T F.
  - exists (tokens (line_of s)). split; [reflexivity|].
    cbn in T. rewrite <- T. apply tokens_cut_length.
  - inversion F as [|? ? Ft Fts]; subst.
    destruct (tokens_cut_step s) as [[E _]|(t' & rest & E & _ & H)];
      rewrite E in T; [discriminate|].
    cbn in T. injection T as -> T.
    destruct H as [[_ ->]|[A _]]; [|congruence].
    destruct (IH rest T Fts) as (more' & -> & L).
    now exists more'.
Qed.

(** A pass that reaches the end of the body, on a whole line. *)
Lemma iteration_line_next row l rest out :
  no_lf l = true -> length l < 255 -> l <> "" ->
  body row l = (Next, out) ->
  iteration row (l ++ nl ++ rest) = Again out rest
  /\ iteration row l = Again out "".
Proof.
  intros N L E B. split.
  - now rewrite (iteration_line row l rest N L), B.
  - now rewrite (iteration_last_line row l N L E), B.
Qed.

Lemma tokens_no_lf l :
  no_lf l = true -> Forall (fun t => no_lf t = true) (tokens l).
Proof. intros N. now apply tokens_upto_all. Qed.

(** * The claims of the specification *)

(** C1, as the specification has it, fails on a line longer than the
    buffer and on a line with a NUL byte.  [long_email_line] is an [insert]
    with three arguments that fit their fields; [fgets] cuts it after 255
    bytes, so the email is echoed short of 12 bytes, which are then read as
    a command.  Of the email of [nul_email_line] the bytes before the NUL
    alone are echoed. *)
Lemma insert_line_counterexample :
  (tokens long_email_line = ["insert"; "1"; "bob"; Str.replicate 254 "e"]
   /\ length "bob" < USERNAME_SIZE
   /\ length (Str.replicate 254 "e") < EMAIL_SIZE
   /\ main row0 (long_email_line ++ nl)
      = (PROMPT ++ "inserted ID 1, user bob, email "
         ++ Str.replicate 242 "e" ++ nl ++ PROMPT
         ++ "Unrecognized command 'eeeeeeeeeeee'." ++ nl ++ PROMPT,
         Exited 0))
  /\ (tokens nul_email_line
      = ["insert"; "1"; "bob"; "b" ++ String NUL "c"]
      /\ main row0 (nul_email_line ++ nl)
         = (PROMPT ++ "inserted ID 1, user bob, email b" ++ nl ++ PROMPT,
            Exited 0)).
Proof.
  split; [split; [|split; [|split]]|split]; try (vm_compute; reflexivity);
    vm_compute; lia.
Qed.

(** C1, amended.  An input line of fewer than 255 bytes, none of them NUL,
    whose first token is [insert], followed by exactly three tokens
    separated by spaces, the user name shorter than 32 bytes (the email
    then fits its field), prints exactly one line,
    [inserted ID <n>, user <username>, email <email>], where [<n>] is [atoi]
    of the first argument and the other two are echoed as they are; the
    prompt follows.  The line may end with its newline or with the input.
    The line [insert 1 alice alice@example.com] prints
    [inserted ID 1, user alice, email alice@example.com]. *)
Theorem insert_line_echoes_fields row l rest id_string username email :
  no_lf l = true ->
  no_nul l = true ->
  length l < 255 ->
  tokens l = ["insert"; id_string; username; email] ->
  length username < USERNAME_SIZE ->
  (iteration row (l ++ nl ++ rest)
   = Again ("inserted ID " ++ printf_d (atoi id_string) ++ ", user "
            ++ username ++ ", email " ++ email ++ nl ++ PROMPT) rest
   /\ iteration row l
      = Again ("inserted ID " ++ printf_d (atoi id_string) ++ ", user "
               ++ username ++ ", email " ++ email ++ nl ++ PROMPT) "")
  /\ iteration row ("insert 1 alice alice@example.com" ++ nl)
     = Again ("inserted ID 1, user alice, email alice@example.com" ++ nl
              ++ PROMPT) "".
Proof.
  intros N Z L T Lu. split; [|reflexivity].
  apply iteration_line_next; try assumption.
  - exact (tokens_nonempty _ _ _ T).
  - rewrite <- (line_of_whole l Z N) in T.
    rewrite (body_insert row l _ _ _ _ (Nat.lt_le_incl _ _ L) T).
    now rewrite username_shown_fits, inserted_prompt.
Qed.

Lemma insert_line_echoes_fields_witness :
  no_lf "insert 7 bob bob@x.org" = true
  /\ no_nul "insert 7 bob bob@x.org" = true
  /\ length "insert 7 bob bob@x.org" < 255
  /\ tokens "insert 7 bob bob@x.org" = ["insert"; "7"; "bob"; "bob@x.org"]
  /\ length "bob" < USERNAME_SIZE
  /\ iteration row0 ("insert 7 bob bob@x.org" ++ nl ++ "q")
     = Again ("inserted ID 7, user bob, email bob@x.org" ++ nl ++ PROMPT) "q"
  /\ iteration row0 "insert 7 bob bob@x.org"
     = Again ("inserted ID 7, user bob, email bob@x.org" ++ nl ++ PROMPT) "".
Proof.
  assert (N : no_lf "insert 7 bob bob@x.org" = true) by reflexivity.
  assert (Z : no_nul "insert 7 bob bob@x.org" = true) by reflexivity.
  assert (L : length "insert 7 bob bob@x.org" < 255) by (vm_compute; lia).
  assert (T : tokens "insert 7 bob bob@x.org"
              = ["insert"; "7"; "bob"; "bob@x.org"]) by reflexivity.
  assert (Lu : length "bob" < USERNAME_SIZE) by (vm_compute; lia).
  exact (conj N (conj Z (conj L (conj T (conj Lu
    (proj1 (insert_line_echoes_fields row0 _ "q" _ _ _ N Z L T Lu))))))).
Defined.

(** C2, as the specification has it, fails: a tab does not separate tokens.
    White space would split [tab_line] into four tokens; [strtok] returns
    the whole line as the command, which is then not recognized. *)
Lemma tab_is_not_a_separator :
  ws_tokens tab_line = ["insert"; "1"; "alice"; "a@b"]
  /\ strtok_calls tab_line = [Some tab_line; None; None; None]
  /\ dispatch row0 tab_line = (Next, unrecognized tab_line).
Proof. repeat split. Qed.

(** C2, amended.  The tokenizer splits the line at space characters only:
    the tokens are the maximal runs of bytes other than the space, any other
    byte (a tab too) being part of a token.  The first [strtok] call returns
    the first of them, the command name, and the three calls after it the
    next three, the positional arguments, [NULL] standing for a token that
    is not there. *)
Theorem strtok_splits_at_spaces line :
  split_at_spaces line (tokens line)
  /\ (forall ts, split_at_spaces line ts -> ts = tokens line)
  /\ strtok_calls line = map (nth_error (tokens line)) [0; 1; 2; 3].
Proof.
  split; [apply tokens_split|]. split.
  - intros ts H. symmetry. now apply split_tokens.
  - unfold strtok_calls.
    next_strtok line c1 s1. next_strtok s1 c2 s2.
    next_strtok s2 c3 s3. next_strtok s3 c4 s4.
    repeat match goal with H : tokens _ = _ |- _ => rewrite H in *; clear H end.
    destruct (tokens line) as [|t1 [|t2 [|t3 [|t4 ts]]]]; reflexivity.
Qed.

(** C3, as the specification has it, fails twice.  A line that holds a tab
    only is white space, and it prints a diagnostic; and after an empty
    line nothing at all is printed, not even the prompt. *)
Lemma blank_line_counterexample :
  Str.all isspace (String TAB "") = true
  /\ iteration row0 (String TAB "" ++ nl)
     = Again (unrecognized (String TAB "") ++ PROMPT) ""
  /\ iteration row0 nl = Again "" "".
Proof. repeat split. Qed.

(** C3, amended.  For a line that is empty or holds space characters only
    the program prints no error message and no other text, and the loop goes
    on with the next read. *)
Theorem blank_line_prints_no_message row input bytes rest :
  fgets 256 input = Some (bytes, rest) ->
  Str.all is_delim (line_of bytes) = true ->
  exists out, iteration row input = Again out rest /\ only_prompt out.
Proof.
  intros F B. exists "". split; [|now left].
  rewrite (iteration_read _ _ _ _ F).
  now rewrite (body_blank row bytes (tokens_blank _ B)).
Qed.

Lemma blank_line_prints_no_message_witness :
  fgets 256 ("   " ++ nl ++ "q") = Some ("   " ++ nl, "q")
  /\ Str.all is_delim (line_of ("   " ++ nl)) = true
  /\ exists out,
       iteration row0 ("   " ++ nl ++ "q") = Again out "q" /\ only_prompt out.
Proof.
  assert (F : fgets 256 ("   " ++ nl ++ "q") = Some ("   " ++ nl, "q"))
    by reflexivity.
  assert (B : Str.all is_delim (line_of ("   " ++ nl)) = true) by reflexivity.
  exact (conj F (conj B (blank_line_prints_no_message row0 _ _ _ F B))).
Defined.

(** C4, as the specification has it, fails on a line longer than the
    buffer: [spaces_then_insert] is an [insert] with two arguments after
    250 spaces; [fgets] cuts it inside the command, and its two pieces are
    reported as commands that are not recognized. *)
Lemma insert_missing_arguments_counterexample :
  tokens spaces_then_insert = ["insert"; "1"; "a"]
  /\ main row0 (spaces_then_insert ++ nl)
     = (PROMPT ++ "Unrecognized command 'inser'." ++ nl ++ PROMPT
        ++ "Unrecognized command 't'." ++ nl ++ PROMPT, Exited 0).
Proof. split; vm_compute; reflexivity. Qed.

(** C4, amended.  An input line of fewer than 255 bytes whose first token
    is [insert], followed by fewer than three argument tokens, prints the
    fixed message [syntax error: insert <id> <username> <email>], and the
    loop goes on.  The line may end with its newline or with the input. *)
Theorem insert_line_missing_arguments row l rest args :
  no_lf l = true ->
  length l < 255 ->
  tokens l = "insert" :: args ->
  List.length args < 3 ->
  iteration row (l ++ nl ++ rest)
  = Again ("syntax error: insert <id> <username> <email>" ++ nl ++ PROMPT)
          rest
  /\ iteration row l
     = Again ("syntax error: insert <id> <username> <email>" ++ nl ++ PROMPT)
             "".
Proof.
  intros N L T A.
  apply iteration_line_next; try assumption.
  - exact (tokens_nonempty _ _ _ T).
  - destruct (tokens_cut_prefix ["insert"] l args T) as (args' & T' & A').
    { repeat constructor. }
    apply (body_syntax_error row l args' T'). lia.
Qed.

Lemma insert_line_missing_arguments_witness :
  no_lf "insert 1 a" = true
  /\ length "insert 1 a" < 255
  /\ tokens "insert 1 a" = "insert" :: ["1"; "a"]
  /\ List.length ["1"; "a"] < 3
  /\ iteration row0 ("insert 1 a" ++ nl ++ "insert")
     = Again ("syntax error: insert <id> <username> <email>" ++ nl ++ PROMPT)
             "insert"
  /\ iteration row0 "insert 1 a"
     = Again ("syntax error: insert <id> <username> <email>" ++ nl ++ PROMPT)
             "".
Proof.
  assert (N : no_lf "insert 1 a" = true) by reflexivity.
  assert (L : length "insert 1 a" < 255) by (vm_compute; lia).
  assert (T : tokens "insert 1 a" = "insert" :: ["1"; "a"]) by reflexivity.
  assert (A : List.length ["1"; "a"] < 3) by (cbn; lia).
  exact (conj N (conj L (conj T (conj A
    (insert_line_missing_arguments row0 _ "insert" _ N L T A))))).
Defined.

(** C5, as the specification has it, fails on a line longer than the
    buffer and on a line with a NUL byte.  [long_token] is one token of 300
    bytes; two messages are printed, which name its first 255 bytes and its
    last 45.  For [nul_token] the message names the bytes before the NUL,
    not the token. *)
Lemma unknown_command_counterexample :
  (hd_error (tokens long_token) = Some long_token
   /\ main row0 (long_token ++ nl)
      = (PROMPT ++ "Unrecognized command '" ++ Str.replicate 255 "x" ++ "'."
         ++ nl ++ PROMPT
         ++ "Unrecognized command '" ++ Str.replicate 45 "x" ++ "'."
         ++ nl ++ PROMPT, Exited 0))
  /\ (hd_error (tokens nul_token) = Some nul_token
      /\ main row0 (nul_token ++ nl)
         = (PROMPT ++ "Unrecognized command 'foo'." ++ nl ++ PROMPT,
            Exited 0)).
Proof. repeat split; vm_compute; reflexivity. Qed.

(** C5, amended.  An input line of fewer than 255 bytes whose first token
    holds no NUL byte and is neither [insert] nor [q] nor [quit] prints
    [Unrecognized command '<token>'.], which names that token, and the loop
    goes on.  The line may end with its newline or with the input. *)
Theorem unknown_command_line_is_named row l rest command :
  no_lf l = true ->
  length l < 255 ->
  hd_error (tokens l) = Some command ->
  no_nul command = true ->
  command <> "insert" -> command <> "q" -> command <> "quit" ->
  iteration row (l ++ nl ++ rest)
  = Again ("Unrecognized command '" ++ command ++ "'." ++ nl ++ PROMPT) rest
  /\ iteration row l
     = Again ("Unrecognized command '" ++ command ++ "'." ++ nl ++ PROMPT) "".
Proof.
  intros N L T Z Hi Hq Hquit.
  destruct (tokens l) as [|c args] eqn:E; [discriminate|].
  injection T as ->.
  pose proof (tokens_no_lf l N) as F. rewrite E in F.
  inversion F as [|? ? Nc _]; subst.
  destruct (tokens_cut_prefix [command] l args E) as (args' & T' & _).
  { repeat constructor. now apply all_line_byte. }
  assert (B : body row l
              = (Next, "Unrecognized command '" ++ command ++ "'." ++ nl
                       ++ PROMPT)).
  { rewrite (body_unrecognized row l command args' T' Hi Hq Hquit).
    unfold unrecognized. now rewrite !append_assoc. }
  apply iteration_line_next; try assumption.
  exact (tokens_nonempty _ _ _ E).
Qed.

Lemma unknown_command_line_is_named_witness :
  no_lf "foobar  x" = true
  /\ length "foobar  x" < 255
  /\ hd_error (tokens "foobar  x") = Some "foobar"
  /\ no_nul "foobar" = true
  /\ "foobar" <> "insert" /\ "foobar" <> "q" /\ "foobar" <> "quit"
  /\ iteration row0 ("foobar  x" ++ nl ++ "q")
     = Again ("Unrecognized command 'foobar'." ++ nl ++ PROMPT) "q"
  /\ iteration row0 "foobar  x"
     = Again ("Unrecognized command 'foobar'." ++ nl ++ PROMPT) "".
Proof.
  assert (N : no_lf "foobar  x" = true) by reflexivity.
  assert (L : length "foobar  x" < 255) by (vm_compute; lia).
  assert (T : hd_error (tokens "foobar  x") = Some "foobar") by reflexivity.
  assert (Z : no_nul "foobar" = true) by reflexivity.
  assert (Hi : "foobar" <> "insert") by discriminate.
  assert (Hq : "foobar" <> "q") by discriminate.
  assert (Hquit : "foobar" <> "quit") by discriminate.
  exact (conj N (conj L (conj T (conj Z (conj Hi (conj Hq (conj Hquit
    (unknown_command_line_is_named row0 _ "q" _ N L T Z Hi Hq Hquit)))))))).
Defined.

(** C6, as the specification has it, fails: [12abc] is not numeric text,
    and the ID echoed for it is 12.  It fails too on a line longer than the
    buffer and on a line with a NUL byte: [long_name_line] and
    [nul_id_line] are [insert]s with three arguments, the first without a
    digit, and they are not accepted. *)
Lemma digits_then_text_counterexample :
  (valid_numeric_text "12abc" = false
   /\ iteration row0 ("insert 12abc bob b@x" ++ nl)
      = Again ("inserted ID 12, user bob, email b@x" ++ nl ++ PROMPT) "")
  /\ (tokens long_name_line
      = ["insert"; "abc"; Str.replicate 250 "u"; "e@x"]
      /\ has_leading_digits "abc" = false
      /\ main row0 (long_name_line ++ nl)
         = (PROMPT ++ "syntax error: insert <id> <username> <email>" ++ nl
            ++ PROMPT ++ "Unrecognized command 'uuuuuu'." ++ nl ++ PROMPT,
            Exited 0))
  /\ (tokens nul_id_line
      = ["insert"; "ab" ++ String NUL "c"; "bob"; "b@x"]
      /\ has_leading_digits ("ab" ++ String NUL "c") = false
      /\ main row0 (nul_id_line ++ nl)
         = (PROMPT ++ "syntax error: insert <id> <username> <email>" ++ nl
            ++ PROMPT, Exited 0)).
Proof. repeat split; vm_compute; reflexivity. Qed.

(** C6, amended.  An input line of fewer than 255 bytes, none of them NUL,
    whose first token is [insert], followed by three argument tokens of
    which the first does not start, after white space and a sign if there
    are any, with a decimal digit, is accepted all the same, and the ID
    echoed is zero.  The line may end with its newline or with the
    input. *)
Theorem insert_line_without_digits_echoes_zero
  row l rest id_string username email :
  no_lf l = true ->
  no_nul l = true ->
  length l < 255 ->
  tokens l = ["insert"; id_string; username; email] ->
  has_leading_digits id_string = false ->
  iteration row (l ++ nl ++ rest)
  = Again ("inserted ID 0, user " ++ username_shown username email
           ++ ", email " ++ email ++ nl ++ PROMPT) rest
  /\ iteration row l
     = Again ("inserted ID 0, user " ++ username_shown username email
              ++ ", email " ++ email ++ nl ++ PROMPT) "".
Proof.
  intros N Z L T D.
  apply iteration_line_next; try assumption.
  - exact (tokens_nonempty _ _ _ T).
  - rewrite <- (line_of_whole l Z N) in T.
    rewrite (body_insert row l _ _ _ _ (Nat.lt_le_incl _ _ L) T).
    now rewrite (atoi_no_digits _ D), inserted_prompt.
Qed.

Lemma insert_line_without_digits_echoes_zero_witness :
  no_lf "insert x1 bob b@x" = true
  /\ no_nul "insert x1 bob b@x" = true
  /\ length "insert x1 bob b@x" < 255
  /\ tokens "insert x1 bob b@x" = ["insert"; "x1"; "bob"; "b@x"]
  /\ has_leading_digits "x1" = false
  /\ iteration row0 ("insert x1 bob b@x" ++ nl ++ "q")
     = Again ("inserted ID 0, user bob, email b@x" ++ nl ++ PROMPT) "q"
  /\ iteration row0 "insert x1 bob b@x"
     = Again ("inserted ID 0, user bob, email b@x" ++ nl ++ PROMPT) "".
Proof.
  assert (N : no_lf "insert x1 bob b@x" = true) by reflexivity.
  assert (Z : no_nul "insert x1 bob b@x" = true) by reflexivity.
  assert (L : length "insert x1 bob b@x" < 255) by (vm_compute; lia).
  assert (T : tokens "insert x1 bob b@x" = ["insert"; "x1"; "bob"; "b@x"])
    by reflexivity.
  assert (D : has_leading_digits "x1" = false) by reflexivity.
  exact (conj N (conj Z (conj L (conj T (conj D
    (insert_line_without_digits_echoes_zero row0 _ "q" _ _ _ N Z L T D)))))).
Defined.

(** C7. The loop is left, normally and with nothing more printed, exactly
    when [fgets] finds the input exhausted or the first token of the line
    read is [q] or [quit]; on every input it is left that way in the end;
    and an input that just ends gives the same run as this input followed
    by a [quit] line. *)
Theorem loop_ends_at_eof_or_quit row input :
  (iteration row input = Done "" (Exited 0) <->
     fgets 256 input = None
     \/ exists bytes rest command,
          fgets 256 input = Some (bytes, rest)
          /\ hd_error (tokens (line_of bytes)) = Some command
          /\ (command = "q" \/ command = "quit"))
  /\ (forall out st,
        iteration row input = Done out st -> out = "" /\ st = Exited 0)
  /\ snd (main row input) = Exited 0
  /\ main row (with_line input "quit") = main row input.
Proof.
  pose proof (iteration_cases row input) as C.
  assert (Q : forall command, is_quit command = true
                <-> command = "q" \/ command = "quit").
  { intros command. unfold is_quit. rewrite orb_true_iff, !String.eqb_eq.
    reflexivity. }
  split; [|split; [|split]].
  - destruct (fgets 256 input) as [[bytes rest]|]; [|split; auto].
    destruct (tokens (line_of bytes)) as [|command args] eqn:T.
    + rewrite C. split; [discriminate|].
      intros [|(b & r & c & [= <- <-] & H & _)]; [discriminate|].
      rewrite T in H. discriminate.
    + destruct (is_quit command) eqn:E.
      * split; [|auto]. intros _. right. exists bytes, rest, command.
        rewrite T. repeat split. now apply Q.
      * destruct C as [out C]. rewrite C. split; [discriminate|].
        intros [|(b & r & c & [= <- <-] & H & H')]; [discriminate|].
        rewrite T in H. injection H as <-. apply Q in H'. congruence.
  - intros out st It. rewrite It in C.
    destruct (fgets 256 input) as [[bytes rest]|]; [|now injection C as -> ->].
    destruct (tokens (line_of bytes)) as [|command args]; [discriminate|].
    destruct (is_quit command); [now injection C as -> ->|].
    destruct C as [? C]. discriminate.
  - unfold main. pose proof (loop_exits row input) as E.
    now destruct (loop row input).
  - unfold main. now rewrite loop_with_quit_line.
Qed.

(** C8. The copies are not checked.  An [insert] with a user name of 32
    bytes or more is accepted, and [strcpy] stores the bytes of the name
    from the 33rd on, and the NUL after them, past the 32 bytes of
    [row.username], in the bytes of [row.email]; the line printed shows it,
    the user name running on into the email. *)
Theorem username_copy_overruns
  row input bytes rest id_string username email more :
  fgets 256 input = Some (bytes, rest) ->
  tokens (line_of bytes) = "insert" :: id_string :: username :: email :: more ->
  USERNAME_SIZE <= length username ->
  (exists row',
     strcpy (mkRow (atoi id_string) (chars row)) USERNAME_OFFSET username
     = Some row'
     /\ bytes_at (chars row') (USERNAME_OFFSET + USERNAME_SIZE)
                 (Str.drop USERNAME_SIZE username)
     /\ chars row' (USERNAME_OFFSET + length username) = NUL)
  /\ iteration row input
     = Again ("inserted ID " ++ printf_d (atoi id_string) ++ ", user "
              ++ (Str.take USERNAME_SIZE username ++ email)
              ++ ", email " ++ email ++ nl ++ PROMPT) rest.
Proof.
  intros F T L. split.
  - pose proof (fgets_length _ _ _ _ F) as B. cbn in B.
    destruct (line_tokens bytes) as [_ S]. rewrite T in S.
    cbn [map list_sum fold_right length] in S.
    rewrite strcpy_inside
      by (cbn [chars id]; change CHARS_SIZE with 287;
          change USERNAME_OFFSET with 0; lia).
    eexists. split; [reflexivity|]. cbn [chars id]. split.
    + apply bytes_at_drop; [exact L|apply poke_str_bytes].
    + apply poke_str_nul.
  - rewrite (iteration_insert _ _ _ _ _ _ _ _ F T).
    now rewrite username_shown_long, inserted_prompt.
Qed.

Lemma username_copy_overruns_witness :
  fgets 256 ("insert 7 " ++ long_username ++ " e@x" ++ nl)
  = Some ("insert 7 " ++ long_username ++ " e@x" ++ nl, "")
  /\ tokens (line_of ("insert 7 " ++ long_username ++ " e@x" ++ nl))
     = "insert" :: "7" :: long_username :: "e@x" :: []
  /\ USERNAME_SIZE <= length long_username
  /\ (exists row',
        strcpy (mkRow (atoi "7") (chars row0)) USERNAME_OFFSET long_username
        = Some row'
        /\ bytes_at (chars row') (USERNAME_OFFSET + USERNAME_SIZE)
                    (Str.drop USERNAME_SIZE long_username)
        /\ chars row' (USERNAME_OFFSET + length long_username) = NUL)
  /\ iteration row0 ("insert 7 " ++ long_username ++ " e@x" ++ nl)
     = Again ("inserted ID 7, user abcdefghijklmnopqrstuvwxyz012345e@x, email e@x"
              ++ nl ++ PROMPT) "".
Proof.
  assert (F : fgets 256 ("insert 7 " ++ long_username ++ " e@x" ++ nl)
              = Some ("insert 7 " ++ long_username ++ " e@x" ++ nl, ""))
    by reflexivity.
  assert (T : tokens (line_of ("insert 7 " ++ long_username ++ " e@x" ++ nl))
              = "insert" :: "7" :: long_username :: "e@x" :: [])
    by reflexivity.
  assert (L : USERNAME_SIZE <= length long_username) by (vm_compute; lia).
  exact (conj F (conj T (conj L
    (username_copy_overruns row0 _ _ _ _ _ _ _ F T L)))).
Defined.

(** C9, as the specification has it, fails on a line longer than the
    buffer and on a line with a NUL byte.  Of [long_tail_line] the fourth
    argument is cut by [fgets], and its last 8 bytes are reported as a
    command that is not recognized; [nul_first_arg_line] has four
    arguments, and prints the syntax error. *)
Lemma insert_extra_tokens_counterexample :
  (tokens long_tail_line = ["insert"; "1"; "a"; "b"; Str.replicate 250 "z"]
   /\ main row0 (long_tail_line ++ nl)
      = (PROMPT ++ "inserted ID 1, user a, email b" ++ nl ++ PROMPT
         ++ "Unrecognized command 'zzzzzzzz'." ++ nl ++ PROMPT, Exited 0))
  /\ (tokens nul_first_arg_line
      = ["insert"; "1" ++ String NUL "x"; "a"; "b"; "c"]
      /\ main row0 (nul_first_arg_line ++ nl)
         = (PROMPT ++ "syntax error: insert <id> <username> <email>" ++ nl
            ++ PROMPT, Exited 0)).
Proof. repeat split; vm_compute; reflexivity. Qed.

(** C9, amended.  On an input line of fewer than 255 bytes whose first
    token is [insert], followed by four tokens or more of which the first
    three hold no NUL byte, these three alone are converted and echoed:
    the line printed is that of the [insert] with these three arguments,
    and nothing is printed about the other tokens.  The line may end with
    its newline or with the input. *)
Theorem insert_line_ignores_extra_tokens
  row l rest id_string username email extra more :
  no_lf l = true ->
  length l < 255 ->
  tokens l = "insert" :: id_string :: username :: email :: extra :: more ->
  no_nul id_string = true ->
  no_nul username = true ->
  no_nul email = true ->
  iteration row (l ++ nl ++ rest)
  = Again ("inserted ID " ++ printf_d (atoi id_string) ++ ", user "
           ++ username_shown username email ++ ", email " ++ email ++ nl
           ++ PROMPT) rest
  /\ iteration row l
     = Again ("inserted ID " ++ printf_d (atoi id_string) ++ ", user "
              ++ username_shown username email ++ ", email " ++ email ++ nl
              ++ PROMPT) "".
Proof.
  intros N L T Zi Zu Ze.
  pose proof (tokens_no_lf l N) as F. rewrite T in F.
  inversion F as [|? ? _ F1]; subst. inversion F1 as [|? ? Ni F2]; subst.
  inversion F2 as [|? ? Nu F3]; subst. inversion F3 as [|? ? Ne _]; subst.
  destruct (tokens_cut_prefix ["insert"; id_string; username; email] l
              (extra :: more) T) as (more' & T' & _).
  { repeat constructor; now apply all_line_byte. }
  apply iteration_line_next; try assumption.
  - exact (tokens_nonempty _ _ _ T).
  - cbn [app] in T'.
    rewrite (body_insert row l _ _ _ _ (Nat.lt_le_incl _ _ L) T').
    now rewrite inserted_prompt.
Qed.

Lemma insert_line_ignores_extra_tokens_witness :
  no_lf "insert 3 bob b@x and more" = true
  /\ length "insert 3 bob b@x and more" < 255
  /\ tokens "insert 3 bob b@x and more"
     = "insert" :: "3" :: "bob" :: "b@x" :: "and" :: ["more"]
  /\ no_nul "3" = true /\ no_nul "bob" = true /\ no_nul "b@x" = true
  /\ iteration row0 ("insert 3 bob b@x and more" ++ nl ++ "q")
     = Again ("inserted ID 3, user bob, email b@x" ++ nl ++ PROMPT) "q"
  /\ iteration row0 "insert 3 bob b@x and more"
     = Again ("inserted ID 3, user bob, email b@x" ++ nl ++ PROMPT) "".
Proof.
  assert (N : no_lf "insert 3 bob b@x and more" = true) by reflexivity.
  assert (L : length "insert 3 bob b@x and more" < 255) by (vm_compute; lia).
  assert (T : tokens "insert 3 bob b@x and more"
              = "insert" :: "3" :: "bob" :: "b@x" :: "and" :: ["more"])
    by reflexivity.
  assert (Zi : no_nul "3" = true) by reflexivity.
  assert (Zu : no_nul "bob" = true) by reflexivity.
  assert (Ze : no_nul "b@x" = true) by reflexivity.
  exact (conj N (conj L (conj T (conj Zi (conj Zu (conj Ze
    (insert_line_ignores_extra_tokens row0 _ "q" _ _ _ _ _
       N L T Zi Zu Ze))))))).
Defined.

(** C10. Of a line with 255 bytes or more before its newline, [fgets] reads
    the first 255 bytes only, and the loop body runs on them as one command
    line; the bytes that follow, up to the newline, are what the next
    [fgets] reads first, as the start of another line.  So one line may run
    several commands, as [two_commands_line] does. *)
Theorem long_line_is_cut row line rest :
  no_lf line = true ->
  255 <= length line ->
  fgets 256 (line ++ nl ++ rest)
  = Some (Str.take 255 line, Str.drop 255 line ++ nl ++ rest)
  /\ iteration row (line ++ nl ++ rest)
     = match body row (Str.take 255 line) with
       | (Break, out) => Done out (Exited 0)
       | (Undefined, out) => Done out Crashed
       | (_, out) => Again out (Str.drop 255 line ++ nl ++ rest)
       end
  /\ fgets 256 (Str.drop 255 line ++ nl ++ rest)
     = Some (Str.take 255 (Str.drop 255 line ++ nl),
             Str.drop 255 (Str.drop 255 line ++ nl) ++ rest)
  /\ main row (two_commands_line ++ nl)
     = (PROMPT ++ "inserted ID 1, user a, email b" ++ nl ++ PROMPT
        ++ "inserted ID 2, user c, email d" ++ nl ++ PROMPT, Exited 0).
Proof.
  intros N L.
  assert (F : fgets 256 (line ++ nl ++ rest)
              = Some (Str.take 255 line, Str.drop 255 line ++ nl ++ rest)).
  { rewrite (fgets_line 256 line rest N). change (256 - 1) with 255.
    rewrite take_append_long, drop_append_long by exact L.
    now rewrite append_assoc. }
  split; [exact F|]. split; [exact (iteration_read _ _ _ _ F)|]. split.
  - apply (fgets_line 256). now apply all_drop.
  - unfold main.
    rewrite (loop_again row (two_commands_line ++ nl)
               ("inserted ID 1, user a, email b" ++ nl ++ PROMPT)
               ("insert 2 c d" ++ nl)) by reflexivity.
    rewrite (loop_again row ("insert 2 c d" ++ nl)
               ("inserted ID 2, user c, email d" ++ nl ++ PROMPT) "")
      by reflexivity.
    rewrite loop_eof. reflexivity.
Qed.

Lemma long_line_is_cut_witness :
  no_lf two_commands_line = true
  /\ 255 <= length two_commands_line
  /\ fgets 256 (two_commands_line ++ nl ++ "q")
     = Some (Str.take 255 two_commands_line,
             Str.drop 255 two_commands_line ++ nl ++ "q")
  /\ Str.drop 255 two_commands_line = "insert 2 c d".
Proof.
  assert (N : no_lf two_commands_line = true) by reflexivity.
  assert (L : 255 <= length two_commands_line) by (vm_compute; lia).
  exact (conj N (conj L (conj
    (proj1 (long_line_is_cut row0 two_commands_line "q" N L)) eq_refl))).
Defined.

(** * Further properties of [main] *)

(** ** The uninitialised [row] *)

Lemma body_any_row row row' bytes :
  length bytes <= 255 -> body row bytes = body row' bytes.
Proof.
  intros L. unfold body. rewrite !dispatch_tokens.
  destruct (line_tokens bytes) as [N S].
  destruct (tokens (line_of bytes)) as [|command args]; [reflexivity|].
  destruct ((command =? "q") || (command =? "quit")); [reflexivity|].
  destruct (String.eqb_spec command "insert") as [->|]; [|reflexivity].
  destruct args as [|a1 [|a2 [|a3 more]]]; try reflexivity.
  cbn [map list_sum fold_right length] in S.
  inversion N as [|? ? _ N1]; subst. inversion N1 as [|? ? _ N2]; subst.
  inversion N2 as [|? ? Nu N3]; subst. inversion N3 as [|? ? Ne _]; subst.
  rewrite !insert_spec; try assumption; try reflexivity;
    change CHARS_SIZE with 287; change EMAIL_SIZE with 255; lia.
Qed.

Lemma iteration_any_row row row' input :
  iteration row input = iteration row' input.
Proof.
  unfold iteration. destruct (fgets 256 input) as [[bytes rest]|] eqn:F;
    [|reflexivity].
  apply fgets_length in F. cbn in F. now rewrite (body_any_row row row').
Qed.

(** X1. What [main] prints and how it ends do not depend on what the
    uninitialised [struct Row row] holds: no byte of it is printed before
    it is written. *)
Theorem main_ignores_uninitialised_row row row' input :
  main row input = main row' input.
Proof.
  unfold main. enough (E : loop row input = loop row' input) by now rewrite E.
  remember (length input) as n eqn:E. revert input E.
  induction n as [n IH] using lt_wf_ind. intros input ->.
  rewrite (loop_eq row), (loop_eq row'), (iteration_any_row row row').
  destruct (iteration row' input) as [out st|out rest] eqn:It; [reflexivity|].
  apply iteration_shorter in It. now rewrite (IH _ It rest eq_refl).
Qed.

(** ** The copies stay inside [struct Row] *)

(** X2. On a line that [fgets] read into the 256 bytes of [buf], the
    tokens of an accepted [insert] are together at most 249 bytes long.  So
    the email and its NUL always fit the 255 bytes of [row.email], the copy
    of the user name, however long, ends inside the struct, and the
    [insert] prints its line. *)
Theorem insert_copies_stay_in_row
  row input bytes rest id_string username email more :
  fgets 256 input = Some (bytes, rest) ->
  tokens (line_of bytes) = "insert" :: id_string :: username :: email :: more ->
  length id_string + length username + length email <= 249
  /\ length email + 1 <= EMAIL_SIZE
  /\ USERNAME_OFFSET + length username + 1 <= CHARS_SIZE
  /\ insert row id_string username email <> None.
Proof.
  intros F T. apply fgets_length in F. cbn in F.
  destruct (line_tokens bytes) as [N S]. rewrite T in N, S.
  cbn [map list_sum fold_right length] in S.
  inversion N as [|? ? _ N1]; subst. inversion N1 as [|? ? _ N2]; subst.
  inversion N2 as [|? ? Nu N3]; subst. inversion N3 as [|? ? Ne _]; subst.
  change EMAIL_SIZE with 255. change CHARS_SIZE with 287.
  change USERNAME_OFFSET with 0.
  repeat split; try lia.
  rewrite insert_spec; try assumption; try discriminate;
    change CHARS_SIZE with 287; change EMAIL_SIZE with 255; lia.
Qed.

Lemma insert_copies_stay_in_row_witness :
  fgets 256 ("insert 7 " ++ long_username ++ " e@x" ++ nl)
  = Some ("insert 7 " ++ long_username ++ " e@x" ++ nl, "")
  /\ tokens (line_of ("insert 7 " ++ long_username ++ " e@x" ++ nl))
     = "insert" :: "7" :: long_username :: "e@x" :: []
  /\ length "7" + length long_username + length "e@x" <= 249
  /\ length "e@x" + 1 <= EMAIL_SIZE
  /\ USERNAME_OFFSET + length long_username + 1 <= CHARS_SIZE
  /\ insert row0 "7" long_username "e@x" <> None.
Proof.
  assert (F : fgets 256 ("insert 7 " ++ long_username ++ " e@x" ++ nl)
              = Some ("insert 7 " ++ long_username ++ " e@x" ++ nl, ""))
    by reflexivity.
  assert (T : tokens (line_of ("insert 7 " ++ long_username ++ " e@x" ++ nl))
              = "insert" :: "7" :: long_username :: "e@x" :: [])
    by reflexivity.
  exact (conj F (conj T
    (insert_copies_stay_in_row row0 _ _ _ _ _ _ _ F T))).
Defined.

(** ** [atoi] reads back what [%d] prints *)

Lemma digits_value_uint_acc d acc t :
  starts_with_digit t = false ->
  digits_value (Z.pos acc) (NilEmpty.string_of_uint d ++ t)
  = digits_value (Z.pos (Pos.of_uint_acc d acc)) t.
Proof.
  intros H. revert acc.
  induction d as [|d IH|d IH|d IH|d IH|d IH|d IH|d IH|d IH|d IH|d IH];
    intros acc; [reflexivity|..];
    cbn [NilEmpty.string_of_uint append digits_value Pos.of_uint_acc];
    change (isdigit _) with true; cbv iota; rewrite <- IH; f_equal;
    unfold digit_val;
    match goal with
    | |- context [Z.of_nat ?k] =>
        let v := eval vm_compute in (Z.of_nat k) in
        change (Z.of_nat k) with v
    end; lia.
Qed.

Lemma digits_value_uint d t :
  starts_with_digit t = false ->
  digits_value 0 (NilEmpty.string_of_uint d ++ t)
  = digits_value (Z.of_N (Pos.of_uint d)) t.
Proof.
  intros H.
  induction d as [|d IH|d IH|d IH|d IH|d IH|d IH|d IH|d IH|d IH|d IH];
    [reflexivity|exact IH|..];
    cbn [NilEmpty.string_of_uint append digits_value Pos.of_uint];
    change (isdigit _) with true; cbv iota;
    apply (digits_value_uint_acc d _ t H).
Qed.

Lemma digits_value_stops acc t :
  starts_with_digit t = false -> digits_value acc t = acc.
Proof. destruct t as [|c t]; cbn; [reflexivity|]. now intros ->. Qed.

Lemma digits_value_zero_uint d t :
  starts_with_digit t = false ->
  digits_value 0 (NilZero.string_of_uint d ++ t) = Z.of_uint d.
Proof.
  intros H. unfold Z.of_uint.
  assert (E : digits_value 0 (NilEmpty.string_of_uint d ++ t)
              = Z.of_N (Pos.of_uint d)).
  { now rewrite digits_value_uint, digits_value_stops. }
  destruct d; exact E.
Qed.

Lemma string_of_uint_head d :
  exists c s, NilZero.string_of_uint d = String c s
              /\ isspace c = false /\ Ascii.eqb c "-" = false
              /\ Ascii.eqb c "+" = false.
Proof. destruct d; eexists; eexists; repeat split. Qed.

Lemma int_of_long_small z :
  (INT_MIN <= z <= INT_MAX)%Z -> int_of_long z = z.
Proof.
  unfold INT_MIN, INT_MAX, int_of_long. intros H.
  rewrite Z.mod_small; lia.
Qed.

(** X3. [atoi] gives back every [int] from the text [%d] prints for it,
    whatever follows that text, as long as it is no digit. *)
Theorem atoi_printf_d n t :
  (INT_MIN <= n <= INT_MAX)%Z ->
  starts_with_digit t = false ->
  atoi (printf_d n ++ t) = n.
Proof.
  intros R H. unfold atoi, printf_d.
  rewrite <- (DecimalZ.of_to n) at 2. rewrite <- (DecimalZ.of_to n) in R.
  assert (S : strtol (NilZero.string_of_int (Z.to_int n) ++ t)
              = Z.of_int (Z.to_int n)).
  { unfold strtol. destruct (Z.to_int n) as [d|d]; cbn [NilZero.string_of_int Z.of_int] in *.
    - destruct (string_of_uint_head d) as (c & s & E & Hs & Hm & Hp).
      pose proof (digits_value_zero_uint d t H) as V. rewrite E in *.
      cbn [append Str.drop_while]. rewrite Hs, Hm, Hp. cbn [append] in V.
      rewrite V. unfold INT_MIN, INT_MAX, LONG_MAX in *. lia.
    - cbn [append Str.drop_while]. change (isspace "-") with false.
      cbv iota. change (Ascii.eqb "-" "-") with true. cbv iota.
      rewrite (digits_value_zero_uint d t H).
      unfold INT_MIN, INT_MAX, LONG_MIN in *. lia. }
  rewrite S. now apply int_of_long_small.
Qed.

Lemma atoi_printf_d_witness :
  (INT_MIN <= -2147483648 <= INT_MAX)%Z
  /\ starts_with_digit "abc" = false
  /\ atoi (printf_d (-2147483648) ++ "abc") = (-2147483648)%Z.
Proof.
  assert (R : (INT_MIN <= -2147483648 <= INT_MAX)%Z)
    by (unfold INT_MIN, INT_MAX; lia).
  assert (H : starts_with_digit "abc" = false) by reflexivity.
  exact (conj R (conj H (atoi_printf_d _ _ R H))).
Defined.

(** ** The shape of the output *)

Lemma no_lf_append a b : no_lf a = true -> no_lf b = true -> no_lf (a ++ b) = true.
Proof. unfold no_lf. intros Ha Hb. now rewrite all_append, Ha, Hb. Qed.

Lemma no_lf_string_of_uint d : no_lf (NilEmpty.string_of_uint d) = true.
Proof. induction d; cbn; auto. Qed.

Lemma no_lf_printf_d n : no_lf (printf_d n) = true.
Proof.
  unfold printf_d. destruct (Z.to_int n) as [d|d]; cbn.
  - destruct d; try reflexivity; apply (no_lf_string_of_uint (_ d)).
  - change (no_lf (NilZero.string_of_uint d) = true).
    destruct d; try reflexivity; apply (no_lf_string_of_uint (_ d)).
Qed.

Lemma no_lf_line_tokens bytes :
  Forall (fun t => no_lf t = true) (tokens (line_of bytes)).
Proof.
  apply tokens_upto_all. unfold line_of, chomp. apply all_take_while.
Qed.

Lemma no_lf_username_shown username email :
  no_lf username = true -> no_lf email = true ->
  no_lf (username_shown username email) = true.
Proof.
  intros Hu He. unfold username_shown.
  destruct (Nat.ltb (length username) USERNAME_SIZE); [exact Hu|].
  apply no_lf_append; [|exact He]. now apply all_take.
Qed.

(** From [Again o r = Again out rest], the output [out]. *)
Ltac again_output :=
  let E := fresh "E" in
  intros E;
  apply (f_equal (fun p => match p with Again o _ | Done o _ => o end)) in E;
  cbv beta iota in E; subst.

(** What a pass that does not leave the loop prints: nothing, or one line
    and the prompt. *)
Lemma iteration_prints_a_line row input out rest :
  iteration row input = Again out rest ->
  out = "" \/ exists l, no_lf l = true /\ out = l ++ nl ++ PROMPT.
Proof.
  unfold iteration.
  destruct (fgets 256 input) as [[bytes r]|] eqn:F; [|discriminate].
  apply fgets_length in F. cbn in F.
  pose proof (no_lf_line_tokens bytes) as N.
  destruct (tokens (line_of bytes)) as [|command args] eqn:T.
  { rewrite (body_blank _ _ T). again_output. now left. }
  inversion N as [|? ? Nc Na]; subst.
  destruct (String.eqb_spec command "q") as [->|Hq].
  { now rewrite (body_quit _ _ _ _ T (or_introl eq_refl)). }
  destruct (String.eqb_spec command "quit") as [->|Hquit].
  { now rewrite (body_quit _ _ _ _ T (or_intror eq_refl)). }
  destruct (String.eqb_spec command "insert") as [->|Hi].
  - destruct args as [|a1 [|a2 [|a3 more]]].
    1-3: rewrite (body_syntax_error _ _ _ T) by (cbn; lia);
      again_output; right;
      exists "syntax error: insert <id> <username> <email>";
      split; reflexivity.
    rewrite (body_insert _ _ _ _ _ _ F T), inserted_prompt.
    again_output. right.
    inversion Na as [|? ? _ N2]; subst. inversion N2 as [|? ? Nu N3]; subst.
    inversion N3 as [|? ? Ne _]; subst.
    exists ("inserted ID " ++ printf_d (atoi a1) ++ ", user "
            ++ username_shown a2 a3 ++ ", email " ++ a3).
    split; [|now rewrite !append_assoc].
    repeat (apply no_lf_append; try reflexivity); try assumption.
    + apply no_lf_printf_d.
    + now apply no_lf_username_shown.
  - rewrite (body_unrecognized _ _ _ _ T Hi Hq Hquit). again_output. right.
    exists ("Unrecognized command '" ++ command ++ "'.").
    split; [|unfold unrecognized; now rewrite !append_assoc].
    repeat (apply no_lf_append; try reflexivity); assumption.
Qed.

Lemma loop_prints_lines row input :
  exists ls, Forall (fun l => no_lf l = true) ls
             /\ fst (loop row input) = responses ls.
Proof.
  remember (length input) as n eqn:E. revert input E.
  induction n as [n IH] using lt_wf_ind. intros input ->.
  rewrite loop_eq. pose proof (iteration_cases row input) as C.
  destruct (iteration row input) as [out st|out rest] eqn:It.
  - exists []. split; [constructor|]. cbn.
    destruct (fgets 256 input) as [[bytes r]|]; [|now injection C as ->].
    destruct (tokens (line_of bytes)) as [|command args]; [discriminate|].
    destruct (is_quit command); [now injection C as ->|].
    destruct C as [? C]. discriminate.
  - pose proof (iteration_shorter _ _ _ _ It) as S.
    destruct (IH _ S rest eq_refl) as (ls & Fl & El).
    destruct (loop row rest) as [o st]. cbn [fst] in *. subst o.
    destruct (iteration_prints_a_line _ _ _ _ It) as [->|(l & Nl & ->)].
    + now exists ls.
    + exists (l :: ls). split; [now constructor|].
      cbn [responses]. now rewrite !append_assoc.
Qed.

(** X4. Everything [main] prints is the prompt followed by answers, each
    of them one line, its newline and the prompt again: an answer never
    holds a newline of its own, and the output always ends with a prompt. *)
Theorem main_prints_prompted_lines row input :
  exists ls, Forall (fun l => no_lf l = true) ls
             /\ fst (main row input) = PROMPT ++ responses ls.
Proof.
  destruct (loop_prints_lines row input) as (ls & Fl & El).
  exists ls. split; [exact Fl|]. unfold main.
  destruct (loop row input) as [o st]. cbn [fst] in *. now subst o.
Qed.

(** ** What [fgets] takes from the input *)

Lemma fgets_read_splits n s :
  let (b, r) := fgets_read n s in
  s = b ++ r /\ length b <= n
  /\ ((exists b', b = b' ++ nl /\ no_lf b' = true)
      \/ no_lf b = true /\ (length b = n \/ r = "")).
Proof.
  revert s. induction n as [|n IH]; intros s.
  - cbn. repeat split; auto.
  - destruct s as [|c s]; cbn [fgets_read].
    + repeat split; cbn; auto with arith.
    + destruct (Ascii.eqb_spec c LF) as [->|Hc].
      * repeat split; cbn; auto with arith. left. now exists "".
      * specialize (IH s). destruct (fgets_read n s) as [b r].
        destruct IH as (E & L & H). subst s.
        apply Ascii.eqb_neq in Hc.
        repeat split; cbn; auto with arith.
        destruct H as [(b' & -> & N)|(N & H)].
        -- left. exists (String c b'). split; [reflexivity|].
           unfold no_lf in *. cbn. now rewrite Hc, N.
        -- right. unfold no_lf in *. cbn. rewrite Hc, N.
           split; [reflexivity|]. destruct H; auto.
Qed.

(** X5. A successful [fgets] takes a prefix of the input, of one byte at
    least and [size - 1] at most, and leaves the rest untouched: no byte is
    lost or read twice.  The prefix ends with the first newline of the
    input, or it holds no newline and then the buffer is full or the input
    is exhausted. *)
Theorem fgets_takes_a_prefix size input bytes rest :
  2 <= size ->
  fgets size input = Some (bytes, rest) ->
  input = bytes ++ rest
  /\ 1 <= length bytes <= size - 1
  /\ ((exists b, bytes = b ++ nl /\ no_lf b = true)
      \/ no_lf bytes = true /\ (length bytes = size - 1 \/ rest = "")).
Proof.
  intros S F. destruct input as [|c s]; [discriminate|].
  unfold fgets in F. injection F as F.
  pose proof (fgets_read_splits (size - 1) (String c s)) as H.
  rewrite F in H. destruct H as (E & L & H).
  repeat split; try assumption.
  destruct size as [|[|n]]; try lia.
  cbn [Nat.sub] in F. cbn [fgets_read] in F.
  destruct (Ascii.eqb c LF).
  - injection F as <- _. cbn. lia.
  - destruct (fgets_read n s). injection F as <- _. cbn. lia.
Qed.

Lemma fgets_takes_a_prefix_witness :
  2 <= 4
  /\ fgets 4 ("abcdef" ++ nl) = Some ("abc", "def" ++ nl)
  /\ "abcdef" ++ nl = "abc" ++ "def" ++ nl
  /\ 1 <= length "abc" <= 4 - 1
  /\ ((exists b, "abc" = b ++ nl /\ no_lf b = true)
      \/ no_lf "abc" = true
         /\ (length "abc" = 4 - 1 \/ "def" ++ nl = "")).
Proof.
  assert (S : 2 <= 4) by lia.
  assert (F : fgets 4 ("abcdef" ++ nl) = Some ("abc", "def" ++ nl))
    by reflexivity.
  exact (conj S (conj F (fgets_takes_a_prefix _ _ _ _ S F))).
Defined.

(** ** One line after the other *)

(** X6. The loop keeps nothing from one line to the next.  After a line
    shorter than the buffer, what the run prints is what this line alone
    makes the program print, followed by the run on the rest of the input,
    unless the line leaves the loop. *)
Theorem lines_are_run_one_by_one row l rest :
  no_lf l = true ->
  length l < 255 ->
  loop row (l ++ nl ++ rest)
  = match iteration row (l ++ nl) with
    | Done out st => (out, st)
    | Again out _ => (out ++ fst (loop row rest), snd (loop row rest))
    end.
Proof.
  intros N L.
  pose proof (fgets_short_line l rest N L) as F.
  pose proof (fgets_short_line l "" N L) as F0.
  rewrite loop_eq, (iteration_read _ _ _ _ F), (iteration_read _ _ _ _ F0).
  destruct (body row (l ++ nl)) as [[] out]; try reflexivity;
    now destruct (loop row rest).
Qed.

Lemma lines_are_run_one_by_one_witness :
  no_lf "insert 1 a b" = true
  /\ length "insert 1 a b" < 255
  /\ loop row0 ("insert 1 a b" ++ nl ++ "foo")
     = match iteration row0 ("insert 1 a b" ++ nl) with
       | Done out st => (out, st)
       | Again out _ => (out ++ fst (loop row0 "foo"), snd (loop row0 "foo"))
       end.
Proof.
  assert (N : no_lf "insert 1 a b" = true) by reflexivity.
  assert (L : length "insert 1 a b" < 255) by (vm_compute; lia).
  exact (conj N (conj L (lines_are_run_one_by_one row0 _ "foo" N L))).
Defined.

(** ** Where the line ends *)

(** X7. The command line is what [buf] holds before its first newline or
    NUL byte: the bytes after a NUL that came with the input are never
    looked at, and a last line that the input leaves without its newline is
    run as if it had one. *)
Theorem line_ends_at_nul_or_newline row a b :
  body row (a ++ String NUL b) = body row a
  /\ body row (a ++ nl) = body row a.
Proof.
  split; apply body_line_of; rewrite !line_of_eq;
    now apply take_while_stop.
Qed.

(** ** Spaces around the tokens *)

Lemma tokens_after_spaces sp s :
  Str.all is_delim sp = true -> tokens (sp ++ s) = tokens s.
Proof.
  intros H. rewrite (tokens_eq (sp ++ s)), (tokens_eq s).
  now rewrite drop_while_append.
Qed.

Lemma all_delim_head sp :
  Str.all is_delim sp = true -> sp = "" \/ exists r, sp = String SP r.
Proof.
  destruct sp as [|c r]; [now left|]. cbn. intros H. right.
  apply andb_prop in H. destruct H as [H _].
  apply Ascii.eqb_eq in H. subst c. now exists r.
Qed.

Lemma split_before_spaces s ts sp :
  Str.all is_delim sp = true ->
  split_at_spaces s ts -> split_at_spaces (s ++ sp) ts.
Proof.
  intros H. induction 1 as [sp0 H0|sp0 t rest ts Hsp Ht Hn Hr _ IH].
  - constructor. now rewrite all_append, H0, H.
  - rewrite !append_assoc. apply split_token; try assumption.
    destruct Hr as [-> | [r ->]]; [now apply all_delim_head|].
    right. now exists (r ++ sp).
Qed.

Lemma tokens_before_spaces s sp :
  Str.all is_delim sp = true -> tokens (s ++ sp) = tokens s.
Proof.
  intros H. apply split_tokens, split_before_spaces; [exact H|].
  apply tokens_split.
Qed.

(** X8. Spaces before the command and after the last token change
    nothing: the line is dispatched as without them. *)
Theorem spaces_around_are_ignored row sp line sp' :
  Str.all is_delim sp = true ->
  Str.all is_delim sp' = true ->
  dispatch row (sp ++ line ++ sp') = dispatch row line.
Proof.
  intros H H'. rewrite !dispatch_tokens.
  now rewrite tokens_after_spaces, tokens_before_spaces.
Qed.

Lemma spaces_around_are_ignored_witness :
  Str.all is_delim "  " = true
  /\ Str.all is_delim "   " = true
  /\ dispatch row0 ("  " ++ "insert 1 a b" ++ "   ")
     = dispatch row0 "insert 1 a b".
Proof.
  assert (H : Str.all is_delim "  " = true) by reflexivity.
  assert (H' : Str.all is_delim "   " = true) by reflexivity.
  exact (conj H (conj H'
    (spaces_around_are_ignored row0 _ "insert 1 a b" _ H H'))).
Defined.
